(** * parserhhub: a forwarding HTTP proxy

    Shallow embedding of [proxy/proxy.go] and of the part of [main/main.go]
    that creates the crash channel, together with the library functions the
    proxy calls ([strings], [net/url], the form handling of [net/http]).

    Go strings are byte sequences; they are modelled by [string], whose
    characters are 8-bit [ascii] values.  Go [int]s are modelled by [Z].
    Go maps ([http.Header], [url.Values]) are modelled by [gmap]. *)

From Stdlib Require Import ZArith Ascii.
From stdpp Require Import base option list strings gmap fin_maps sorting.

Local Open Scope Z_scope.

(** ** Byte strings *)

Definition len (s : string) : Z := Z.of_nat (String.length s).

(** [s[:n]] and [s[n:]] for [0 <= n]; a slice bound beyond the end of the
    string does not occur in the code below and is clamped here. *)
Fixpoint takeN (n : nat) (s : string) : string :=
  match n, s with
  | S n', String c s' => String c (takeN n' s')
  | _, _ => EmptyString
  end.

Fixpoint dropN (n : nat) (s : string) : string :=
  match n, s with
  | S n', String _ s' => dropN n' s'
  | _, _ => s
  end.

Definition sliceTo (s : string) (j : Z) : string := takeN (Z.to_nat j) s.
Definition sliceFrom (s : string) (i : Z) : string := dropN (Z.to_nat i) s.

Definition byteVal (c : ascii) : Z := Z.of_N (N_of_ascii c).

(** [sub] occurs in [s] as a contiguous run of bytes. *)
Definition occursIn (sub s : string) : Prop :=
  exists pre post, s = pre +:+ sub +:+ post.

(** ** Package [unicode/utf8]: the width of the first rune of a string *)

Module utf8.

Definition between (lo hi x : Z) : bool := (lo <=? x) && (x <=? hi).

(** Size and accepted range of the second byte, from the first byte
    (the table [first] and [acceptRanges]); [None] for an ASCII or an
    invalid first byte, which both have width 1. *)
Definition lead (b0 : Z) : option (nat * (Z * Z)) :=
  if between 194 223 b0 then Some (2%nat, (128, 191))
  else if b0 =? 224 then Some (3%nat, (160, 191))
  else if between 225 236 b0 then Some (3%nat, (128, 191))
  else if b0 =? 237 then Some (3%nat, (128, 159))
  else if between 238 239 b0 then Some (3%nat, (128, 191))
  else if b0 =? 240 then Some (4%nat, (144, 191))
  else if between 241 243 b0 then Some (4%nat, (128, 191))
  else if b0 =? 244 then Some (4%nat, (128, 143))
  else None.

Definition cont (c : ascii) : bool := between 128 191 (byteVal c).

(** The width returned by [DecodeRuneInString]. *)
Definition runeWidth (s : string) : nat :=
  match s with
  | EmptyString => 0
  | String c0 rest =>
      match lead (byteVal c0) with
      | None => 1
      | Some (sz, (lo, hi)) =>
          if (String.length s <? sz) then 1 else
          match rest with
          | String c1 rest1 =>
              if negb (between lo hi (byteVal c1)) then 1
              else if (sz <=? 2)%nat then 2
              else match rest1 with
                   | String c2 rest2 =>
                       if negb (cont c2) then 1
                       else if (sz <=? 3)%nat then 3
                       else match rest2 with
                            | String c3 _ => if negb (cont c3) then 1 else 4
                            | EmptyString => 1
                            end
                   | EmptyString => 1
                   end
          | EmptyString => 1
          end
      end
  end%nat.

(** [RuneCountInString]: the number of runes, each step consuming the
    width of the first rune.  The fuel is the length of the string; every
    step consumes at least one byte. *)
Fixpoint runeCountFuel (fuel : nat) (s : string) : Z :=
  match fuel, s with
  | _, EmptyString => 0
  | O, _ => 0
  | S fuel', _ => 1 + runeCountFuel fuel' (dropN (runeWidth s) s)
  end.

Definition RuneCountInString (s : string) : Z :=
  runeCountFuel (String.length s) s.

End utf8.

(** ** Package [strings] *)

Module strings.

Fixpoint HasPrefix (s prefix : string) {struct prefix} : bool :=
  match prefix, s with
  | EmptyString, _ => true
  | String p prefix', String c s' =>
      if Ascii.eqb p c then HasPrefix s' prefix' else false
  | String _ _, EmptyString => false
  end.

(** [Index(s, substr)]: the index of the first instance of [substr] in
    [s], or [-1] if [substr] is not present in [s]. *)
Fixpoint Index (s substr : string) : Z :=
  if HasPrefix s substr then 0
  else match s with
       | EmptyString => -1
       | String _ s' =>
           let i := Index s' substr in
           if i =? -1 then -1 else i + 1
       end.

Definition Contains (s substr : string) : bool :=
  0 <=? Index s substr.

(** [Cut(s, sep)]: the text before and after the first instance of [sep];
    [(s, "", false)] when [sep] does not occur. *)
Definition Cut (s sep : string) : string * string * bool :=
  let i := Index s sep in
  if 0 <=? i then (sliceTo s i, sliceFrom s (i + len sep), true)
  else (s, EmptyString, false).

(** [Count(s, substr)]: the number of non-overlapping instances of
    [substr] in [s].  The loop of the library is run with the length of
    [s] plus one as fuel: each iteration drops at least one byte. *)
Fixpoint countLoop (fuel : nat) (s substr : string) : Z :=
  match fuel with
  | O => 0
  | S fuel' =>
      let i := Index s substr in
      if i =? -1 then 0
      else 1 + countLoop fuel' (sliceFrom s (i + len substr)) substr
  end.

Definition Count (s substr : string) : Z :=
  if len substr =? 0 then utf8.RuneCountInString s + 1
  else countLoop (S (String.length s)) s substr.

(** The replacement loop of [Replace]: [k] replacements remain, [rest] is
    [s[start:]], [first] tells the first iteration ([i == 0]). *)
Fixpoint replaceLoop (k : nat) (first : bool) (rest old new : string) : string :=
  match k with
  | O => rest
  | S k' =>
      let j :=
        if len old =? 0
        then (if first then 0 else Z.of_nat (utf8.runeWidth rest))
        else Index rest old in
      sliceTo rest j +:+ new +:+
        replaceLoop k' false (sliceFrom rest (j + len old)) old new
  end.

(** [Replace(s, old, new, n)]: a copy of [s] with the first [n]
    non-overlapping instances of [old] replaced by [new]; all of them
    when [n < 0]. *)
Definition Replace (s old new : string) (n : Z) : string :=
  if String.eqb old new || (n =? 0) then s
  else
    let m := Count s old in
    if m =? 0 then s
    else
      let n := if (n <? 0) || (m <? n) then m else n in
      replaceLoop (Z.to_nat n) true s old new.

End strings.

(** ** Errors *)

(** A Go [error] value.  [errorString] is what [errors.New] and
    [fmt.Errorf] build; the other constructors are the library errors the
    proxy can meet. *)
Inductive error : Type :=
| errorString (msg : string)
| EscapeError (s : string)
| invalidMethodError (method : string)   (* "net/http: invalid method %q" *)
| externalError (msg : string).

(** ** Package [net/url]: query escaping, [ParseQuery], [Values.Encode] *)

Module url.

(** [url.Values]: [map[string][]string]. *)
Abbreviation Values := (gmap string (list string)).

Definition isAlnum (c : ascii) : bool :=
  let x := byteVal c in
  utf8.between 97 122 x || utf8.between 65 90 x || utf8.between 48 57 x.

(** [shouldEscape(c, encodeQueryComponent)]: everything but the
    unreserved characters is escaped. *)
Definition shouldEscape (c : ascii) : bool :=
  if isAlnum c then false
  else if (Ascii.eqb c "-" || Ascii.eqb c "_" || Ascii.eqb c "." || Ascii.eqb c "~")%char
  then false
  else true.

Definition upperhex (x : Z) : ascii :=
  if x <? 10 then ascii_of_N (Z.to_N (48 + x))
  else ascii_of_N (Z.to_N (65 + (x - 10))).

(** [QueryEscape(s)], that is [escape(s, encodeQueryComponent)]. *)
Fixpoint QueryEscape (s : string) : string :=
  match s with
  | EmptyString => EmptyString
  | String c s' =>
      if Ascii.eqb c " "%char then String "+"%char (QueryEscape s')
      else if shouldEscape c then
        String "%"%char
          (String (upperhex (Z.shiftr (byteVal c) 4))
             (String (upperhex (Z.land (byteVal c) 15)) (QueryEscape s')))
      else String c (QueryEscape s')
  end.

Definition ishex (c : ascii) : bool :=
  let x := byteVal c in
  utf8.between 48 57 x || utf8.between 97 102 x || utf8.between 65 70 x.

Definition unhex (c : ascii) : Z :=
  let x := byteVal c in
  if utf8.between 48 57 x then x - 48
  else if utf8.between 97 102 x then x - 97 + 10
  else if utf8.between 65 70 x then x - 65 + 10
  else 0.

(** [QueryUnescape(s)], that is [unescape(s, encodeQueryComponent)]:
    [%XX] becomes the byte [XX] and [+] a space.  The library checks the
    escapes in a first pass and decodes in a second one; here the first
    invalid escape, from the left, ends the decoding with its
    [EscapeError], which carries at most three bytes. *)
Fixpoint unescape (s : string) : string + error :=
  match s with
  | EmptyString => inl EmptyString
  | String c s' =>
      if Ascii.eqb c "%"%char then
        match s' with
        | String a (String b s'') =>
            if ishex a && ishex b then
              match unescape s'' with
              | inl t =>
                  inl (String (ascii_of_N (Z.to_N
                         (Z.lor (Z.shiftl (unhex a) 4) (unhex b)))) t)
              | inr e => inr e
              end
            else inr (EscapeError (takeN 3 s))
        | _ => inr (EscapeError (takeN 3 s))
        end
      else
        match unescape s' with
        | inl t => inl (String (if Ascii.eqb c "+"%char then " "%char else c) t)
        | inr e => inr e
        end
  end.

Definition QueryUnescape (s : string) : string * option error :=
  match unescape s with
  | inl t => (t, None)
  | inr e => (EmptyString, Some e)
  end.

(** [m[key] = append(m[key], value)] *)
Definition appendValue (m : Values) (key value : string) : Values :=
  <[key := default [] (m !! key) ++ [value]]> m.

(** The loop of [parseQuery] (Go 1.17 and later: [&] is the only
    separator and a [;] in a pair is an error).  One iteration consumes
    the text up to and including the first [&], so the length of the
    query is enough fuel. *)
Fixpoint parseQueryLoop (fuel : nat) (m : Values) (err : option error)
    (query : string) : Values * option error :=
  match fuel with
  | O => (m, err)
  | S fuel' =>
      if String.eqb query "" then (m, err)
      else
        let '(key, query, _) := strings.Cut query "&" in
        if strings.Contains key ";" then
          parseQueryLoop fuel' m
            (Some (errorString "invalid semicolon separator in query")) query
        else if String.eqb key "" then parseQueryLoop fuel' m err query
        else
          let '(key, value, _) := strings.Cut key "=" in
          match QueryUnescape key with
          | (_, Some err1) =>
              parseQueryLoop fuel' m
                (match err with None => Some err1 | Some _ => err end) query
          | (key, None) =>
              match QueryUnescape value with
              | (_, Some err1) =>
                  parseQueryLoop fuel' m
                    (match err with None => Some err1 | Some _ => err end) query
              | (value, None) =>
                  parseQueryLoop fuel' (appendValue m key value) err query
              end
          end
  end.

Definition ParseQuery (query : string) : Values * option error :=
  parseQueryLoop (String.length query) ∅ None query.

(** [slices.Sort(keys)]: the keys in increasing byte-wise order. *)
Fixpoint insertKey (k : string) (l : list string) : list string :=
  match l with
  | [] => [k]
  | x :: l' => if String.leb k x then k :: l else x :: insertKey k l'
  end.

Definition sortKeys (l : list string) : list string :=
  foldr insertKey [] l.

(** The inner loop of [Encode] for one key. *)
Definition encodeKey (buf : string) (k : string) (vs : list string) : string :=
  let keyEscaped := QueryEscape k in
  fold_left
    (fun buf v =>
       (if 0 <? len buf then buf +:+ "&" else buf)
         +:+ keyEscaped +:+ "=" +:+ QueryEscape v)
    vs buf.

(** [Values.Encode]: the form in URL-encoded form, sorted by key. *)
Definition Encode (v : Values) : string :=
  if (size v =? 0)%nat then EmptyString
  else
    let keys := sortKeys (map fst (map_to_list v)) in
    fold_left (fun buf k => encodeKey buf k (default [] (v !! k))) keys EmptyString.

End url.

(** ** Package [net/http]: requests, responses and form parsing *)

Module http.

(** [http.Header]: [map[string][]string], keys in canonical form. *)
Abbreviation Header := (gmap string (list string)).

Definition StatusBadRequest : Z := 400.
Definition StatusInternalServerError : Z := 500.

(** [Header.Get(key)] for a key already in canonical form: the first
    value of the key, or the empty string. *)
Definition Header_Get (h : Header) (key : string) : string :=
  match h !! key with
  | Some (v :: _) => v
  | _ => EmptyString
  end.

(** An [io.Reader] over a finite stream: [ReadAll] yields [data] and then
    the error [readErr], if any. *)
Record Reader : Type := mkReader {
  data : string;
  readErr : option error
}.

Definition ReadAll (b : Reader) : string * option error :=
  (data b, readErr b).

(** [url.URL], of which the proxy only uses the raw query. *)
Record URL : Type := mkURL { RawQuery : string }.

(** The inbound [*http.Request].  [Form] and [PostForm] are [nil]
    ([None]) until [ParseForm] has run. *)
Record Request : Type := mkRequest {
  Method : string;
  RequestURI : string;
  reqURL : option URL;
  reqHeader : Header;
  Body : option Reader;
  Form : option url.Values;
  PostForm : option url.Values
}.

Definition UserAgent (r : Request) : string :=
  Header_Get (reqHeader r) "User-Agent".

(** The request the server hands to a handler for the request target
    [uri]: [RequestURI] is the target as received and [URL] its parse by
    [url.ParseRequestURI], whose raw query is the text after the first
    [?] of the target. *)
Definition serverRequest (method uri : string) (h : Header) (body : Reader) : Request :=
  {| Method := method; RequestURI := uri;
     reqURL := Some {| RawQuery := snd (fst (strings.Cut uri "?")) |};
     reqHeader := h; Body := Some body; Form := None; PostForm := None |}.

(** What the proxy sends out: the [*http.Request] built by [NewRequest],
    with the destination kept as the string that was parsed. *)
Record OutboundRequest : Type := mkOutbound {
  outMethod : string;
  outURL : string;
  outHeader : Header;
  outBody : option string
}.

(** The upstream [*http.Response]. *)
Record Response : Type := mkResponse {
  StatusCode : Z;
  respBody : Reader
}.

(** [isTokenRune] of [httpguts], on bytes. *)
Definition isToken (c : ascii) : bool :=
  url.isAlnum c ||
  existsb (Ascii.eqb c)
    ["!"; "#"; "$"; "%"; "&"; "'"; "*"; "+"; "-"; "."; "^"; "_"; "`"; "|"; "~"]%char.

Fixpoint allToken (s : string) : bool :=
  match s with
  | EmptyString => true
  | String c s' => isToken c && allToken s'
  end.

Definition validMethod (method : string) : bool :=
  (0 <? len method) && allToken method.

Definition maxFormSize : Z := Z.shiftl 10 20.

(** [checkWriteHeaderCode(code)]: [WriteHeader] panics on a code that has
    not three digits, that is below 100 or above 999. *)
Definition checkWriteHeaderCode (code : Z) : bool :=
  (100 <=? code) && (code <=? 999).

End http.

(** ** The data of the server lifecycle *)

(** The two handler functions registered on the router. *)
Inductive HandlerFunc : Type := GetHandlerFunc | PostHandlerFunc.

(** A route of the [mux.Router]: the methods it matches and its handler. *)
Record Route : Type := mkRoute {
  routeMethods : list string;
  routeHandler : HandlerFunc
}.

Record Router : Type := mkRouter {
  skipClean : bool;
  routes : list Route
}.

(** [http.Server]: the address and the keep-alive switch; its handler is
    the router of the [ProxyServer] behind the CORS options. *)
Record Server : Type := mkServer {
  Addr : string;
  corsHeaders : list string;
  corsOrigins : list string;
  corsMethods : list string;
  keepAlivesEnabled : bool
}.

(** A [chan bool]: its capacity, the values buffered, the number of
    goroutines blocked in a receive, and whether it was closed. *)
Record Chan : Type := mkChan {
  chanCap : nat;
  chanBuf : list bool;
  chanRecvq : nat;
  chanClosed : bool
}.

(** [make(chan bool, n)] *)
Definition make_chan (n : nat) : Chan :=
  {| chanCap := n; chanBuf := []; chanRecvq := 0; chanClosed := false |}.

(** A reference to a channel; [None] is the [nil] channel. *)
Definition ChanRef : Type := nat.

(** The goroutine started by [Start]: the closure captures the server
    address and the channel. *)
Record Task : Type := mkTask {
  taskAddr : string;
  taskSigChan : option ChanRef
}.

(** ** The environment of the proxy

    The collaborators the proxy calls and that are not modelled further:
    the media type parser, the URL parser behind [http.NewRequest], the
    shared HTTP client, the connection of the original caller, and the
    graceful shutdown of the listening server. *)

Record Env : Type := mkEnv {
  (** [mime.ParseMediaType]: the media type and the error. *)
  mime_ParseMediaType : string -> string * option error;
  (** [url.Parse], as used by [http.NewRequest]: [None] when the
      destination parses. *)
  url_Parse : string -> option error;
  (** [http.DefaultClient.Do] *)
  client_Do : http.OutboundRequest -> http.Response + error;
  (** the outcome of [w.Write(body)] on the caller's connection *)
  writer_Write : string -> option error;
  (** the outcome of [server.Shutdown(ctx)] within the five seconds *)
  server_Shutdown : Server -> option error
}.

(** [http.NewRequest(method, url, body)] *)
Definition NewRequest (env : Env) (method url : string) (body : option string)
  : http.OutboundRequest + error :=
  let method := if String.eqb method "" then "GET" else method in
  if negb (http.validMethod method)
  then inr (invalidMethodError method)
  else match url_Parse env url with
       | Some err => inr err
       | None => inl {| http.outMethod := method; http.outURL := url;
                        http.outHeader := ∅; http.outBody := body |}
       end.

(** [copyValues(dst, src)]: [dst[k] = append(dst[k], vs...)] for every
    key of [src]. *)
Definition copyValues (dst src : url.Values) : url.Values :=
  map_fold (fun k vs dst => <[k := default [] (dst !! k) ++ vs]> dst) dst src.

(** [parsePostForm(r)]: the values of the body, [None] for [nil].  The body
    is read through a reader limited to [maxFormSize + 1] bytes, so a body
    that has more than [maxFormSize] bytes is reported as too large. *)
Definition parsePostForm (env : Env) (r : http.Request)
  : option url.Values * option error :=
  match http.Body r with
  | None => (None, Some (errorString "missing form body"))
  | Some body =>
      let ct := http.Header_Get (http.reqHeader r) "Content-Type" in
      let ct := if String.eqb ct "" then "application/octet-stream" else ct in
      let '(ct, err) := mime_ParseMediaType env ct in
      if String.eqb ct "application/x-www-form-urlencoded" then
        if http.maxFormSize <? len (http.data body)
        then (None, Some (errorString "http: POST too large"))
        else
          match http.ReadAll body with
          | (_, Some e) =>
              (None, match err with None => Some e | Some _ => err end)
          | (b, None) =>
              let '(vs, e) := url.ParseQuery b in
              (Some vs, match err with None => e | Some _ => err end)
          end
      else (None, err)
  end.

(** [r.ParseForm()]: fills [r.PostForm] from the body and [r.Form] from
    the body and the query of the URL. *)
Definition ParseForm (env : Env) (r : http.Request) : http.Request * option error :=
  let '(postForm, err) :=
    match http.PostForm r with
    | Some pf => (pf, None)
    | None =>
        let '(pf, err) :=
          if String.eqb (http.Method r) "POST" || String.eqb (http.Method r) "PUT"
             || String.eqb (http.Method r) "PATCH"
          then parsePostForm env r
          else (None, None) in
        (default ∅ pf, err)
    end in
  let '(form, err) :=
    match http.Form r with
    | Some f => (f, err)
    | None =>
        let form : option url.Values :=
          if (0 <? size postForm)%nat then Some (copyValues ∅ postForm) else None in
        let '(newValues, err) :=
          match http.reqURL r with
          | Some u =>
              let '(nv, e) := url.ParseQuery (http.RawQuery u) in
              (nv, match err with None => e | Some _ => err end)
          | None => (∅, err)
          end in
        match form with
        | None => (newValues, err)
        | Some f => (copyValues f newValues, err)
        end
    end in
  ({| http.Method := http.Method r; http.RequestURI := http.RequestURI r;
      http.reqURL := http.reqURL r; http.reqHeader := http.reqHeader r;
      http.Body := http.Body r; http.Form := Some form;
      http.PostForm := Some postForm |}, err).

(** ** Observable effects

    A handler returns nothing; what it does is the sequence of calls it
    makes on the response writer, the shared client, the upstream body and
    the logger.  The model returns that sequence.  [WriteHeader] panics on
    a status code outside 100..999; the codes the proxy writes itself (400
    and 500) are inside, the code of an upstream need not be.  A call that
    panicked is followed by [EvPanic] in the sequence. *)

Inductive Level : Type := DebugLevel | InfoLevel | ErrorLevel | FatalLevel.

Inductive Field : Type :=
| zap_String (key val : string)
| zap_Strings (key : string) (vals : list string)
| zap_ErrorText (key : string) (err : error).   (* zap.String(key, err.Error()) *)

Inductive Event : Type :=
| EvLog (level : Level) (msg : string) (fields : list Field)
| EvWriteHeader (statusCode : Z)                  (* w.WriteHeader(statusCode) *)
| EvWrite (body : string) (result : option error) (* w.Write(body) and its error *)
| EvDo (req : http.OutboundRequest)               (* http.DefaultClient.Do(req) *)
| EvClose                                         (* resp.Body.Close() *)
| EvGo (t : Task)                                 (* go func() { ... }() *)
| EvPanic (code : Z).       (* the call before it panicked: "invalid WriteHeader code" *)

(** The status codes passed to [WriteHeader], in order. *)
Definition statusesWritten (tr : list Event) : list Z :=
  omap (fun e => match e with EvWriteHeader c => Some c | _ => None end) tr.

(** The status that reaches the caller: the code of the first call of
    [WriteHeader] that returned.  A call that panicked sent nothing, and
    the handler is abandoned there. *)
Fixpoint statusSent (tr : list Event) : option Z :=
  match tr with
  | [] => None
  | EvWriteHeader _ :: EvPanic _ :: _ => None
  | EvWriteHeader c :: _ => Some c
  | _ :: tr' => statusSent tr'
  end.

(** Whether the run ended in a panic. *)
Definition panicked (tr : list Event) : bool :=
  existsb (fun e => match e with EvPanic _ => true | _ => false end) tr.

(** The bodies passed to [Write], in order. *)
Definition bodiesWritten (tr : list Event) : list string :=
  omap (fun e => match e with EvWrite b _ => Some b | _ => None end) tr.

(** The requests handed to the shared client, in order. *)
Definition outboundCalls (tr : list Event) : list http.OutboundRequest :=
  omap (fun e => match e with EvDo r => Some r | _ => None end) tr.

(** The log entries, in order. *)
Definition logged (tr : list Event) : list (Level * string * list Field) :=
  omap (fun e => match e with EvLog l m f => Some (l, m, f) | _ => None end) tr.

(** ** [proxy.go]: the destination resolver *)

Definition extractDest (path : string) : string * option error :=
  if negb (strings.Index path "/proxy/" =? 0)
  then (EmptyString, Some (errorString "unknown path"))
  else (strings.Replace path "/proxy/" "" 1, None).

(** ** [proxy.go]: forwarding and relaying *)

(** [req.Header = headers] *)
Definition setHeader (req : http.OutboundRequest) (headers : http.Header)
  : http.OutboundRequest :=
  {| http.outMethod := http.outMethod req; http.outURL := http.outURL req;
     http.outHeader := headers; http.outBody := http.outBody req |}.

Definition doRequest (env : Env) (method dest : string) (headers : http.Header)
    (requestBody : option string) : list Event :=
  match NewRequest env method dest requestBody with
  | inr err =>
      [EvWriteHeader http.StatusInternalServerError;
       EvLog ErrorLevel "create new get request failed" [zap_ErrorText "error" err]]
  | inl req =>
      let req := setHeader req headers in
      EvDo req ::
      match client_Do env req with
      | inr err =>
          [EvWriteHeader http.StatusBadRequest;
           EvLog ErrorLevel "request failed" [zap_ErrorText "error" err]]
      | inl resp =>
          (* defer resp.Body.Close() *)
          match http.ReadAll (http.respBody resp) with
          | (_, Some _) =>
              [EvWriteHeader http.StatusInternalServerError; EvClose]
          | (body, None) =>
              if negb (http.checkWriteHeaderCode (http.StatusCode resp)) then
                (* w.WriteHeader panics: nothing is sent, [w.Write] is not
                   reached, and the deferred close runs *)
                [EvWriteHeader (http.StatusCode resp);
                 EvPanic (http.StatusCode resp);
                 EvClose]
              else
              EvWriteHeader (http.StatusCode resp) ::
              match writer_Write env body with
              | Some err =>
                  [EvWrite body (Some err);
                   EvLog ErrorLevel "write response body failed" [zap_ErrorText "error" err];
                   EvClose]
              | None => [EvWrite body None; EvClose]
              end
          end
      end
  end.

(** [fmt.Sprintf("%s:%s, ", k, v)] for a string [k] and a slice [v]. *)
Definition joinWith (sep : string) (l : list string) : string :=
  match l with
  | [] => EmptyString
  | x :: l' => fold_left (fun acc y => acc +:+ sep +:+ y) l' x
  end.

Definition sprintfPair (k : string) (v : list string) : string :=
  k +:+ ":" +:+ ("[" +:+ joinWith " " v +:+ "]") +:+ ", ".

(** The dump of a map for the trace record.  Go leaves the order of a
    [range] over a map unspecified; the order of [map_to_list] stands for
    it, and nothing below depends on it. *)
Definition dumpMap (m : gmap string (list string)) : list string :=
  map (fun kv => sprintfPair (fst kv) (snd kv)) (map_to_list m).

Definition GetHandler (env : Env) (r : http.Request) : list Event :=
  let headers := dumpMap (http.reqHeader r) in
  EvLog DebugLevel "GET proxy"
    [zap_String "path" (http.RequestURI r);
     zap_String "user-agent" (http.UserAgent r);
     zap_String "user-agent" (http.UserAgent r);
     zap_Strings "headers" headers] ::
  match extractDest (http.RequestURI r) with
  | (_, Some err) =>
      [EvWriteHeader http.StatusBadRequest;
       EvLog DebugLevel "extract destination failed" [zap_ErrorText "error" err]]
  | (dest, None) =>
      if len dest =? 0 then [EvWriteHeader http.StatusBadRequest]
      else doRequest env "GET" dest (http.reqHeader r) None
  end.

Definition PostHandler (env : Env) (r : http.Request) : list Event :=
  let headers := dumpMap (http.reqHeader r) in
  match ParseForm env r with
  | (_, Some err) =>
      [EvLog ErrorLevel "parse form failed" [zap_ErrorText "error" err];
       EvWriteHeader http.StatusBadRequest]
  | (r, None) =>
      (* a key of the map whose slice is nil is skipped *)
      let forms := dumpMap (filter (fun kv => snd kv <> []) (default ∅ (http.PostForm r))) in
      EvLog DebugLevel "POST proxy"
        [zap_String "path" (http.RequestURI r);
         zap_String "user-agent" (http.UserAgent r);
         zap_Strings "headers" headers;
         zap_Strings "forms" forms] ::
      match extractDest (http.RequestURI r) with
      | (_, Some err) =>
          [EvWriteHeader http.StatusBadRequest;
           EvLog DebugLevel "extract destination failed" [zap_ErrorText "error" err]]
      | (dest, None) =>
          if len dest =? 0 then [EvWriteHeader http.StatusBadRequest]
          else doRequest env "POST" dest (http.reqHeader r)
                 (Some (url.Encode (default ∅ (http.Form r))))
      end
  end.

(** ** [proxy.go]: the server lifecycle *)

Record ProxyServer : Type := mkProxyServer {
  localAddr : string;
  server : option Server;
  router : Router;
  allowedHeaders : list string;
  allowedOrigins : list string;
  allowedMethods : list string
}.

Definition getDefaultAllowedHeaders : list string := ["*"].
Definition getDefaultAllowedOrigins : list string := ["*"].
Definition getDefaultAllowedMethods : list string := ["GET"; "POST"].

Definition NewProxyServer (localAddr : string) : ProxyServer :=
  {| localAddr := localAddr;
     server := None;
     router := {| skipClean := true; routes := [] |};
     allowedHeaders := getDefaultAllowedHeaders;
     allowedOrigins := getDefaultAllowedOrigins;
     allowedMethods := getDefaultAllowedMethods |}.

(** [c.Start(sigChan, keepalive)]: the new state of [c], the calls made
    (log entries and the goroutine started) and the error returned. *)
Definition Start (c : ProxyServer) (sigChan : option ChanRef) (keepalive : bool)
  : ProxyServer * list Event * option error :=
  match server c with
  | Some _ => (c, [], Some (errorString "rest server already started"))
  | None =>
      let logs :=
        map (fun site => EvLog InfoLevel "CORS allowed origins" [zap_String "site" site])
          (allowedOrigins c) ++
        map (fun header => EvLog InfoLevel "CORS allowed headers" [zap_String "header" header])
          (allowedHeaders c) ++
        map (fun method => EvLog InfoLevel "CORS allowed methods" [zap_String "method" method])
          (allowedMethods c) in
      let router' :=
        {| skipClean := skipClean (router c);
           routes := routes (router c) ++
                     [ {| routeMethods := ["GET"]; routeHandler := GetHandlerFunc |};
                       {| routeMethods := ["POST"]; routeHandler := PostHandlerFunc |} ] |} in
      let srv :=
        {| Addr := localAddr c;
           corsHeaders := allowedHeaders c;
           corsOrigins := allowedOrigins c;
           corsMethods := allowedMethods c;
           keepAlivesEnabled := keepalive |} in
      ({| localAddr := localAddr c; server := Some srv; router := router';
          allowedHeaders := allowedHeaders c; allowedOrigins := allowedOrigins c;
          allowedMethods := allowedMethods c |},
       logs ++ [EvGo {| taskAddr := localAddr c; taskSigChan := sigChan |}],
       None)
  end.

(** [c.Shutdown()] *)
Definition Shutdown (env : Env) (c : ProxyServer)
  : ProxyServer * list Event * option error :=
  match server c with
  | None => (c, [], Some (errorString "proxy server not started"))
  | Some srv =>
      let l1 := EvLog InfoLevel "proxy Server is shutting down"
                  [zap_String "addr" (localAddr c)] in
      let l2 :=
        match server_Shutdown env srv with
        | Some err => EvLog ErrorLevel "proxy Server shutdown failed"
                        [zap_ErrorText "error" err]
        | None => EvLog InfoLevel "proxy Server shutdown successful"
                    [zap_String "addr" (localAddr c)]
        end in
      ({| localAddr := localAddr c; server := None; router := router c;
          allowedHeaders := allowedHeaders c; allowedOrigins := allowedOrigins c;
          allowedMethods := allowedMethods c |},
       [l1; l2], None)
  end.

(** The two states of the lifecycle, read off the instance handle. *)
Inductive LifecycleState : Type := Stopped | Running.

Definition lifecycleState (c : ProxyServer) : LifecycleState :=
  match server c with
  | None => Stopped
  | Some _ => Running
  end.

(** ** The listening goroutine and its channel *)

(** The outcome of a send statement [ch <- v] in the current state of the
    channel: a send on a closed channel panics; it proceeds when a receiver
    is waiting or the buffer has room; otherwise the sender blocks. *)
Inductive SendResult : Type :=
| Sent (ch' : Chan)
| Blocks
| Panics.

Definition chanSend (ch : Chan) (v : bool) : SendResult :=
  if chanClosed ch then Panics
  else if (0 <? chanRecvq ch)%nat then
    Sent {| chanCap := chanCap ch; chanBuf := chanBuf ch;
            chanRecvq := (chanRecvq ch - 1)%nat; chanClosed := false |}
  else if (length (chanBuf ch) <? chanCap ch)%nat then
    Sent {| chanCap := chanCap ch; chanBuf := chanBuf ch ++ [v];
            chanRecvq := chanRecvq ch; chanClosed := false |}
  else Blocks.

(** Where the goroutine stands. *)
Inductive TaskPC : Type :=
| AtStart      (* before the first log entry *)
| AtListen     (* inside [ListenAndServe] *)
| AtSend       (* at [sigChan <- true] *)
| AtEnd        (* returned *)
| AtPanic.     (* send on a closed channel *)

(** The state of the goroutine: its position, the state of the channel it
    captured ([None] for [nil]) and what it has logged. *)
Record TaskState : Type := mkTaskState {
  pc : TaskPC;
  sigChan : option Chan;
  taskLog : list Event
}.

Definition spawn (ch : option Chan) : TaskState :=
  {| pc := AtStart; sigChan := ch; taskLog := [] |}.

(** The goroutine [t] when it starts, [heap] giving the state of the
    channels. *)
Definition spawnTask (t : Task) (heap : ChanRef -> Chan) : TaskState :=
  spawn (heap <$> taskSigChan t).

(** One step of the goroutine.  [ret] is what [ListenAndServe] returns
    when it returns.  While the goroutine runs alone nothing else touches
    the channel, so a blocked send leaves the state as it is. *)
Definition taskStep (addr : string) (ret : option error) (st : TaskState) : TaskState :=
  match pc st with
  | AtStart =>
      {| pc := AtListen; sigChan := sigChan st;
         taskLog := taskLog st ++
                    [EvLog InfoLevel "proxy server started" [zap_String "addr" addr]] |}
  | AtListen =>
      match ret with
      | Some err =>
          {| pc := match sigChan st with Some _ => AtSend | None => AtEnd end;
             sigChan := sigChan st;
             taskLog := taskLog st ++
                        [EvLog InfoLevel "proxy Server stopped"
                           [zap_String "addr" addr; zap_ErrorText "cause" err]] |}
      | None => {| pc := AtEnd; sigChan := sigChan st; taskLog := taskLog st |}
      end
  | AtSend =>
      match sigChan st with
      | Some ch =>
          match chanSend ch true with
          | Sent ch' => {| pc := AtEnd; sigChan := Some ch'; taskLog := taskLog st |}
          | Blocks => st
          | Panics => {| pc := AtPanic; sigChan := sigChan st; taskLog := taskLog st |}
          end
      | None => st   (* a send on a nil channel blocks forever *)
      end
  | AtEnd | AtPanic => st
  end.

Fixpoint runTask (n : nat) (addr : string) (ret : option error) (st : TaskState) : TaskState :=
  match n with
  | O => st
  | S n' => runTask n' addr ret (taskStep addr ret st)
  end.

(** [main.go]: [resetServerChan := make(chan bool, 1)] *)
Definition resetServerChan : Chan := make_chan 1.

(** ** Stubs for the environment

    Concrete collaborators on which the model can be run: a media type
    parser that returns a parameter-free value unchanged, a URL parser that
    accepts everything, an upstream that answers [status] with [body], and
    a caller whose connection accepts the response. *)

Definition stubUpstream (status : Z) (body : string) : Env :=
  {| mime_ParseMediaType := fun v => (v, None);
     url_Parse := fun _ => None;
     client_Do := fun _ =>
       inl {| http.StatusCode := status; http.respBody := http.mkReader body None |};
     writer_Write := fun _ => None;
     server_Shutdown := fun _ => None |}.

(** An upstream that refuses the connection. *)
Definition stubRefusing : Env :=
  {| mime_ParseMediaType := fun v => (v, None);
     url_Parse := fun _ => None;
     client_Do := fun _ => inr (externalError "connection refused");
     writer_Write := fun _ => None;
     server_Shutdown := fun _ => None |}.

(** An upstream whose body cannot be read to its end. *)
Definition stubBrokenBody : Env :=
  {| mime_ParseMediaType := fun v => (v, None);
     url_Parse := fun _ => None;
     client_Do := fun _ =>
       inl {| http.StatusCode := 200;
              http.respBody := http.mkReader "par" (Some (externalError "unexpected EOF")) |};
     writer_Write := fun _ => None;
     server_Shutdown := fun _ => None |}.

(** A destination that [url.Parse] rejects. *)
Definition stubBadURL : Env :=
  {| mime_ParseMediaType := fun v => (v, None);
     url_Parse := fun _ => Some (externalError "missing protocol scheme");
     client_Do := fun _ => inr (externalError "unreachable");
     writer_Write := fun _ => None;
     server_Shutdown := fun _ => None |}.

(** A caller that has gone away: the write of the body fails. *)
Definition stubClientGone (status : Z) (body : string) : Env :=
  {| mime_ParseMediaType := fun v => (v, None);
     url_Parse := fun _ => None;
     client_Do := fun _ =>
       inl {| http.StatusCode := status; http.respBody := http.mkReader body None |};
     writer_Write := fun _ => Some (externalError "broken pipe");
     server_Shutdown := fun _ => None |}.

(** A server whose graceful shutdown runs into the deadline. *)
Definition stubShutdownTimeout : Env :=
  {| mime_ParseMediaType := fun v => (v, None);
     url_Parse := fun _ => None;
     client_Do := fun _ => inr (externalError "unreachable");
     writer_Write := fun _ => None;
     server_Shutdown := fun _ => Some (externalError "context deadline exceeded") |}.

Definition formHeader : http.Header :=
  {[ "Content-Type" := ["application/x-www-form-urlencoded"] ]}.

Definition emptyBody : http.Reader := http.mkReader "" None.

(** ** Observers and runs used by the further properties *)

(** The number of calls of [resp.Body.Close()]. *)
Definition closesDone (tr : list Event) : nat :=
  length (omap (fun e => match e with EvClose => Some tt | _ => None end) tr).

(** No body is written before a status has been passed to [WriteHeader]:
    the scan fails on a [Write] that no [WriteHeader] precedes. *)
Fixpoint statusBeforeBody (tr : list Event) : bool :=
  match tr with
  | [] => true
  | EvWriteHeader _ :: _ => true
  | EvWrite _ _ :: _ => false
  | _ :: tr' => statusBeforeBody tr'
  end.

(** A lifecycle operation applied to a server value. *)
Inductive LifecycleOp : Type :=
| OpStart (sigChan : option ChanRef) (keepalive : bool)
| OpShutdown.

Definition applyOp (env : Env) (c : ProxyServer) (op : LifecycleOp)
  : ProxyServer * list Event * option error :=
  match op with
  | OpStart sigChan keepalive => Start c sigChan keepalive
  | OpShutdown => Shutdown env c
  end.

(** The operations of [ops] applied in order: the final server value and
    the error each operation returned. *)
Fixpoint runOps (env : Env) (c : ProxyServer) (ops : list LifecycleOp)
  : ProxyServer * list (option error) :=
  match ops with
  | [] => (c, [])
  | op :: ops' =>
      let '(c', _, err) := applyOp env c op in
      let '(c'', errs) := runOps env c' ops' in
      (c'', err :: errs)
  end.

(** The number of [Start] operations of [ops] that succeed from [c]. *)
Fixpoint startsDone (env : Env) (c : ProxyServer) (ops : list LifecycleOp) : nat :=
  match ops with
  | [] => 0
  | op :: ops' =>
      let '(c', _, err) := applyOp env c op in
      (match op, err with
       | OpStart _ _, None => 1
       | _, _ => 0
       end + startsDone env c' ops')%nat
  end.

(** What every handler run keeps to: one status, at most one outbound
    call, at most one written body, and no body before the status. *)
Definition disciplined (tr : list Event) : Prop :=
  (exists code, statusesWritten tr = [code]) /\
  (length (outboundCalls tr) <= 1)%nat /\
  (length (bodiesWritten tr) <= 1)%nat /\
  (closesDone tr <= 1)%nat /\
  statusBeforeBody tr = true.

(** The two-state machine the lifecycle is meant to be: the next state and
    the error of an operation, from the state alone. *)
Definition machineStep (st : LifecycleState) (op : LifecycleOp)
  : LifecycleState * option error :=
  match st, op with
  | Stopped, OpStart _ _ => (Running, None)
  | Running, OpStart _ _ => (Running, Some (errorString "rest server already started"))
  | Running, OpShutdown => (Stopped, None)
  | Stopped, OpShutdown => (Stopped, Some (errorString "proxy server not started"))
  end.

Fixpoint machineRun (st : LifecycleState) (ops : list LifecycleOp)
  : LifecycleState * list (option error) :=
  match ops with
  | [] => (st, [])
  | op :: ops' =>
      let '(st', err) := machineStep st op in
      let '(st'', errs) := machineRun st' ops' in
      (st'', err :: errs)
  end.

(** The running server, if any, was built from the configuration of [c]. *)
Definition serverMatches (c : ProxyServer) : Prop :=
  forall srv, server c = Some srv ->
    Addr srv = localAddr c /\
    corsHeaders srv = allowedHeaders c /\
    corsOrigins srv = allowedOrigins c /\
    corsMethods srv = allowedMethods c.

(** The two routes a successful [Start] registers. *)
Definition startRoutes : list Route :=
  [ {| routeMethods := ["GET"]; routeHandler := GetHandlerFunc |};
    {| routeMethods := ["POST"]; routeHandler := PostHandlerFunc |} ].

(** * Properties *)

(** ** The library model on the examples of its documentation *)

Example Index_chicken :
  strings.Index "chicken" "ken" = 4 /\ strings.Index "chicken" "dmr" = -1.
Proof. split; reflexivity. Qed.

Example Count_cheese :
  strings.Count "cheese" "e" = 3 /\ strings.Count "five" "" = 5.
Proof. split; reflexivity. Qed.

Example Replace_oink :
  strings.Replace "oink oink oink" "k" "ky" 2 = "oinky oinky oink" /\
  strings.Replace "oink oink oink" "oink" "moo" (-1) = "moo moo moo" /\
  strings.Replace "abc" "" "-" (-1) = "-a-b-c-".
Proof. repeat split; reflexivity. Qed.

Example Cut_first_separator :
  strings.Cut "a=1&b=2" "&" = ("a=1", "b=2", true) /\
  strings.Cut "a=1" "&" = ("a=1", "", false).
Proof. split; reflexivity. Qed.

Example QueryEscape_sample :
  url.QueryEscape "a b&c=d/~" = "a+b%26c%3Dd%2F~".
Proof. reflexivity. Qed.

Example QueryUnescape_sample :
  url.QueryUnescape "a+b%26c%3d" = ("a b&c=", None) /\
  url.QueryUnescape "50%zz" = ("", Some (EscapeError "%zz")) /\
  url.QueryUnescape "50%" = ("", Some (EscapeError "%")).
Proof. repeat split; reflexivity. Qed.

Example ParseQuery_sample :
  (url.ParseQuery "x=1&y=2&y=3").1 = {[ "x" := ["1"]; "y" := ["2"; "3"] ]} /\
  (url.ParseQuery "x=1&y=2&y=3").2 = None /\
  (url.ParseQuery "x=%zz&y=2").1 = {[ "y" := ["2"] ]} /\
  (url.ParseQuery "x=%zz&y=2").2 = Some (EscapeError "%zz").
Proof. repeat split; vm_compute; reflexivity. Qed.

Example Encode_sorts_keys :
  url.Encode {[ "name" := ["Ava"]; "friend" := ["Jess"; "Sarah"; "Zoe"] ]}
  = "friend=Jess&friend=Sarah&friend=Zoe&name=Ava".
Proof. vm_compute. reflexivity. Qed.

Example extractDest_samples :
  extractDest "/proxy/http://example.test/ok" = ("http://example.test/ok", None) /\
  extractDest "/proxy//proxy/x" = ("/proxy/x", None) /\
  extractDest "/other/proxy/x" = ("", Some (errorString "unknown path")) /\
  extractDest "proxy/x" = ("", Some (errorString "unknown path")).
Proof. repeat split; reflexivity. Qed.

(** ** Byte strings and package [strings] *)

Section StringFacts.

Lemma len_nonneg s : 0 <= len s.
Proof. unfold len. lia. Qed.

Lemma length_app s t :
  String.length (s +:+ t) = (String.length s + String.length t)%nat.
Proof. induction s as [|c s IH]; simpl; [done|by rewrite IH]. Qed.

Lemma len_app s t : len (s +:+ t) = len s + len t.
Proof. unfold len. rewrite length_app. lia. Qed.

Lemma len_zero_iff s : len s = 0 <-> s = EmptyString.
Proof.
  unfold len. destruct s; simpl; split; intros H; try done; lia.
Qed.

Lemma dropN_app s t : dropN (String.length s) (s +:+ t) = t.
Proof. induction s as [|c s IH]; simpl; [by destruct t|apply IH]. Qed.

Lemma takeN_app s t : takeN (String.length s) (s +:+ t) = s.
Proof. induction s as [|c s IH]; simpl; [by destruct t|by rewrite IH]. Qed.

Lemma HasPrefix_app p s : strings.HasPrefix (p +:+ s) p = true.
Proof.
  induction p as [|c p IH]; simpl; [done|].
  by rewrite Ascii.eqb_refl.
Qed.

Lemma HasPrefix_inv s p :
  strings.HasPrefix s p = true -> exists t, s = p +:+ t.
Proof.
  revert s. induction p as [|c p IH]; intros s H; simpl in *.
  - by exists s.
  - destruct s as [|d s]; [done|].
    destruct (Ascii.eqb c d) eqn:E; [|done].
    apply Ascii.eqb_eq in E as ->.
    destruct (IH _ H) as [t ->]. by exists t.
Qed.

Lemma HasPrefix_iff s p :
  strings.HasPrefix s p = true <-> exists t, s = p +:+ t.
Proof.
  split; [apply HasPrefix_inv|]. intros [t ->]. apply HasPrefix_app.
Qed.

Lemma Index_lower s substr : -1 <= strings.Index s substr.
Proof.
  induction s as [|c s IH]; simpl.
  - destruct (strings.HasPrefix _ _); lia.
  - destruct (strings.HasPrefix _ _); [lia|].
    destruct (Z.eqb_spec (strings.Index s substr) (-1)); lia.
Qed.

(** [Index] is [0] exactly on the strings that start with [substr]. *)
Lemma Index_zero_iff s substr :
  strings.Index s substr = 0 <-> strings.HasPrefix s substr = true.
Proof.
  split.
  - destruct s as [|c s]; simpl.
    + destruct (strings.HasPrefix _ _); [done|lia].
    + destruct (strings.HasPrefix _ _); [done|].
      pose proof (Index_lower s substr).
      destruct (Z.eqb_spec (strings.Index s substr) (-1)); lia.
  - intros H. destruct s; simpl in *; by rewrite H.
Qed.

Lemma countLoop_nonneg fuel s substr : 0 <= strings.countLoop fuel s substr.
Proof.
  revert s. induction fuel as [|fuel IH]; intros s; simpl; [lia|].
  destruct (_ =? _); [lia|]. specialize (IH (sliceFrom s (strings.Index s substr + len substr))). lia.
Qed.

(** Removing the first instance of a non-empty prefix. *)
Lemma Replace_prefix_once p s :
  p <> EmptyString ->
  strings.Replace (p +:+ s) p EmptyString 1 = s.
Proof.
  intros Hp. unfold strings.Replace.
  assert (String.eqb p "" = false) as -> by by apply String.eqb_neq.
  assert (strings.Index (p +:+ s) p = 0) as Hidx
    by (apply Index_zero_iff, HasPrefix_app).
  assert ((len p =? 0) = false) as Hlen.
  { apply Z.eqb_neq. intros ?%len_zero_iff. done. }
  assert (1 <= strings.Count (p +:+ s) p) as Hm.
  { unfold strings.Count. rewrite Hlen. simpl strings.countLoop.
    rewrite Hidx. simpl.
    pose proof (countLoop_nonneg (String.length (p +:+ s))
                  (sliceFrom (p +:+ s) (0 + len p)) p). lia. }
  simpl orb.
  destruct (Z.eqb_spec (strings.Count (p +:+ s) p) 0); [lia|].
  destruct (Z.ltb_spec (strings.Count (p +:+ s) p) 1); [lia|].
  change (Z.to_nat 1) with 1%nat. cbn [strings.replaceLoop].
  rewrite Hlen, Hidx. unfold sliceTo, sliceFrom.
  change (Z.to_nat 0) with 0%nat.
  replace (Z.to_nat (0 + len p)) with (String.length p) by (unfold len; lia).
  rewrite dropN_app. by destruct p.
Qed.

End StringFacts.

(** ** The loops of the library run to their end

    [Count], [RuneCountInString] and [ParseQuery] are loops in the library
    and run on fuel here.  The fuel given is enough: with any larger amount
    the result is the same, so no loop is cut short. *)

Section Fuel.

Lemma dropN_length n s :
  (String.length (dropN n s) <= String.length s - n)%nat.
Proof.
  revert s. induction n as [|n IH]; intros [|c s]; simpl; try lia.
  specialize (IH s). lia.
Qed.

Lemma Index_empty_string substr :
  substr <> EmptyString -> strings.Index EmptyString substr = -1.
Proof. by destruct substr. Qed.

Lemma countLoop_fuel substr :
  substr <> EmptyString ->
  forall fuel fuel' s,
    (String.length s < fuel)%nat -> (String.length s < fuel')%nat ->
    strings.countLoop fuel s substr = strings.countLoop fuel' s substr.
Proof.
  intros Hne. induction fuel as [|fuel IH]; intros [|fuel'] s H H'; try lia.
  cbn [strings.countLoop].
  destruct (Z.eqb_spec (strings.Index s substr) (-1)) as [|Hi]; [done|].
  f_equal.
  assert (s <> EmptyString) as Hs
    by (intros ->; by rewrite Index_empty_string in Hi).
  pose proof (Index_lower s substr).
  assert (0 < len substr) as Hl.
  { pose proof (len_nonneg substr). pose proof (len_zero_iff substr).
    destruct (Z.eq_dec (len substr) 0); [tauto|lia]. }
  pose proof (dropN_length (Z.to_nat (strings.Index s substr + len substr)) s).
  assert (0 < String.length s)%nat by (destruct s; simpl; [done|lia]).
  apply IH; unfold sliceFrom; lia.
Qed.

Lemma runeWidth_pos s : s <> EmptyString -> (1 <= utf8.runeWidth s)%nat.
Proof.
  destruct s as [|c s]; [done|]. intros _.
  unfold utf8.runeWidth. repeat case_match; lia.
Qed.

Lemma runeCount_fuel fuel fuel' s :
  (String.length s <= fuel)%nat -> (String.length s <= fuel')%nat ->
  utf8.runeCountFuel fuel s = utf8.runeCountFuel fuel' s.
Proof.
  revert fuel' s. induction fuel as [|fuel IH]; intros [|fuel'] [|c s] H H';
    simpl in H, H'; try lia; try done.
  cbn [utf8.runeCountFuel]. f_equal.
  pose proof (runeWidth_pos (String c s) ltac:(done)) as Hw.
  pose proof (dropN_length (utf8.runeWidth (String c s)) (String c s)) as Hd.
  set (w := utf8.runeWidth (String c s)) in *.
  change (String.length (String c s)) with (S (String.length s)) in Hd.
  apply IH; lia.
Qed.

(** The text left after a cut is shorter than the text cut. *)
Lemma Cut_rest_shorter s sep :
  s <> EmptyString -> sep <> EmptyString ->
  (String.length (strings.Cut s sep).1.2 < String.length s)%nat.
Proof.
  intros Hs Hsep. unfold strings.Cut.
  assert (0 < String.length s)%nat by (destruct s; simpl; [done|lia]).
  destruct (Z.leb_spec 0 (strings.Index s sep)); simpl; [|done].
  assert (0 < len sep).
  { pose proof (len_nonneg sep). pose proof (len_zero_iff sep).
    destruct (Z.eq_dec (len sep) 0); [tauto|lia]. }
  pose proof (dropN_length (Z.to_nat (strings.Index s sep + len sep)) s).
  unfold sliceFrom. lia.
Qed.

Lemma parseQueryLoop_fuel fuel fuel' m err query :
  (String.length query <= fuel)%nat -> (String.length query <= fuel')%nat ->
  url.parseQueryLoop fuel m err query = url.parseQueryLoop fuel' m err query.
Proof.
  revert fuel' m err query.
  induction fuel as [|fuel IH]; intros [|fuel'] m err query H H'.
  - done.
  - destruct query; simpl in *; [done|lia].
  - destruct query; simpl in *; [done|lia].
  - cbn [url.parseQueryLoop].
    destruct (String.eqb_spec query "") as [|Hq]; [done|].
    pose proof (Cut_rest_shorter query "&" Hq ltac:(done)) as Hlt.
    destruct (strings.Cut query "&") as [[key rest] found]. simpl in Hlt.
    assert (forall m e, url.parseQueryLoop fuel m e rest
                        = url.parseQueryLoop fuel' m e rest) as Hrec
      by (intros; apply IH; lia).
    repeat case_match; apply Hrec.
Qed.

End Fuel.

(** ** The destination resolver *)

Section Resolver.

Lemma extractDest_prefix s : extractDest ("/proxy/" +:+ s) = (s, None).
Proof.
  unfold extractDest.
  assert (strings.Index ("/proxy/" +:+ s) "/proxy/" = 0) as ->
    by (apply Index_zero_iff, HasPrefix_app).
  simpl negb. cbv iota. by rewrite Replace_prefix_once.
Qed.

Lemma extractDest_no_prefix p :
  strings.HasPrefix p "/proxy/" = false ->
  extractDest p = (EmptyString, Some (errorString "unknown path")).
Proof.
  intros H. unfold extractDest.
  destruct (Z.eqb_spec (strings.Index p "/proxy/") 0) as [E|E]; [|done].
  apply Index_zero_iff in E. congruence.
Qed.

(** The resolver succeeds exactly on the paths that start with the
    prefix, and then returns what follows it. *)
Lemma extractDest_ok_iff p dest :
  extractDest p = (dest, None) <-> p = "/proxy/" +:+ dest.
Proof.
  split.
  - intros H. destruct (strings.HasPrefix p "/proxy/") eqn:E.
    + apply HasPrefix_inv in E as [t ->].
      rewrite extractDest_prefix in H. congruence.
    + rewrite extractDest_no_prefix in H by done. congruence.
  - intros ->. apply extractDest_prefix.
Qed.

End Resolver.

(** C1: for every string [s], [extractDest] applied to ["/proxy/"]
    followed by [s] succeeds and returns exactly [s]: the prefix is removed
    once and the remainder is returned as it is, also when it contains
    further occurrences of the prefix. *)
Theorem extractDest_roundtrip (s : string) :
  extractDest ("/proxy/" +:+ s) = (s, None).
Proof. apply extractDest_prefix. Qed.

(** C2: for every path that does not start with ["/proxy/"],
    [extractDest] returns the empty destination together with the error
    "unknown path". *)
Theorem extractDest_unknown_path (p : string) :
  (forall s, p <> "/proxy/" +:+ s) ->
  extractDest p = (EmptyString, Some (errorString "unknown path")).
Proof.
  intros H. apply extractDest_no_prefix.
  destruct (strings.HasPrefix p "/proxy/") eqn:E; [|done].
  apply HasPrefix_inv in E as [t ->]. by destruct (H t).
Qed.

Lemma extractDest_unknown_path_witness :
  extractDest "/other/proxy/x" = (EmptyString, Some (errorString "unknown path")).
Proof.
  apply (extractDest_unknown_path "/other/proxy/x").
  intros s H. simpl in H. discriminate H.
Defined.

(** ** Form parsing keeps the rest of the request *)

Section FormFacts.
Context (env : Env).

Lemma ParseForm_RequestURI r :
  http.RequestURI (ParseForm env r).1 = http.RequestURI r.
Proof. unfold ParseForm. by repeat case_match. Qed.

Lemma ParseForm_reqHeader r :
  http.reqHeader (ParseForm env r).1 = http.reqHeader r.
Proof. unfold ParseForm. by repeat case_match. Qed.

Lemma ParseForm_Form_is_Some r :
  is_Some (http.Form (ParseForm env r).1).
Proof. unfold ParseForm. by repeat case_match. Qed.

End FormFacts.

(** ** The route handlers *)

Section Handlers.
Context (env : Env).

(** What the GET handler does once the trace record is written. *)
Lemma GetHandler_unfold r :
  exists entry,
    GetHandler env r = entry ::
      match extractDest (http.RequestURI r) with
      | (_, Some err) =>
          [EvWriteHeader 400;
           EvLog DebugLevel "extract destination failed" [zap_ErrorText "error" err]]
      | (dest, None) =>
          if len dest =? 0 then [EvWriteHeader 400]
          else doRequest env "GET" dest (http.reqHeader r) None
      end
    /\ exists fields, entry = EvLog DebugLevel "GET proxy" fields.
Proof. eexists. split; [reflexivity|]. by eexists. Qed.

(** The POST handler when the form does not parse. *)
Lemma PostHandler_parse_error r r' err :
  ParseForm env r = (r', Some err) ->
  PostHandler env r =
    [EvLog ErrorLevel "parse form failed" [zap_ErrorText "error" err];
     EvWriteHeader 400].
Proof. intros H. unfold PostHandler. by rewrite H. Qed.

(** The POST handler when the form parses. *)
Lemma PostHandler_parse_ok r r' :
  ParseForm env r = (r', None) ->
  exists fields,
    PostHandler env r = EvLog DebugLevel "POST proxy" fields ::
      match extractDest (http.RequestURI r) with
      | (_, Some err) =>
          [EvWriteHeader 400;
           EvLog DebugLevel "extract destination failed" [zap_ErrorText "error" err]]
      | (dest, None) =>
          if len dest =? 0 then [EvWriteHeader 400]
          else doRequest env "POST" dest (http.reqHeader r)
                 (Some (url.Encode (default ∅ (http.Form r'))))
      end.
Proof.
  intros H. unfold PostHandler. rewrite H.
  pose proof (ParseForm_RequestURI env r) as HU.
  pose proof (ParseForm_reqHeader env r) as HH.
  rewrite H in HU, HH. simpl in HU, HH. rewrite HU, HH.
  by eexists.
Qed.

End Handlers.

(** C3: [extractDest "/proxy/"] succeeds with the empty destination, and
    on every request whose extracted destination is empty the GET handler
    and the POST handler write status 400, once, and hand no request to the
    outbound client. *)
Theorem empty_destination_rejected :
  extractDest "/proxy/" = (EmptyString, None) /\
  forall (env : Env) (r : http.Request),
    extractDest (http.RequestURI r) = (EmptyString, None) ->
    (statusesWritten (GetHandler env r) = [400] /\
     outboundCalls (GetHandler env r) = []) /\
    (statusesWritten (PostHandler env r) = [400] /\
     outboundCalls (PostHandler env r) = []).
Proof.
  split; [reflexivity|].
  intros env r H. split.
  - destruct (GetHandler_unfold env r) as (entry & -> & fields & ->).
    rewrite H. done.
  - destruct (ParseForm env r) as [r' [err|]] eqn:E.
    + by rewrite (PostHandler_parse_error env r r' err E).
    + destruct (PostHandler_parse_ok env r r' E) as [fields ->].
      rewrite H. done.
Qed.

Lemma empty_destination_rejected_witness :
  let r := http.serverRequest "POST" "/proxy/" formHeader (http.mkReader "a=1" None) in
  let env := stubUpstream 201 "hi" in
  (statusesWritten (GetHandler env r) = [400] /\
   outboundCalls (GetHandler env r) = []) /\
  (statusesWritten (PostHandler env r) = [400] /\
   outboundCalls (PostHandler env r) = []).
Proof.
  intros r env. apply (proj2 empty_destination_rejected env r). reflexivity.
Defined.

(** ** Forwarding and relaying *)

Section Forwarder.
Context (env : Env).
Context (method dest : string) (headers : http.Header) (requestBody : option string).

Lemma doRequest_construction_failed err :
  NewRequest env method dest requestBody = inr err ->
  doRequest env method dest headers requestBody =
    [EvWriteHeader 500;
     EvLog ErrorLevel "create new get request failed" [zap_ErrorText "error" err]].
Proof. intros H. unfold doRequest. by rewrite H. Qed.

Lemma doRequest_execution_failed req err :
  NewRequest env method dest requestBody = inl req ->
  client_Do env (setHeader req headers) = inr err ->
  doRequest env method dest headers requestBody =
    [EvDo (setHeader req headers); EvWriteHeader 400;
     EvLog ErrorLevel "request failed" [zap_ErrorText "error" err]].
Proof. intros H1 H2. unfold doRequest. by rewrite H1, H2. Qed.

Lemma doRequest_read_failed req resp err :
  NewRequest env method dest requestBody = inl req ->
  client_Do env (setHeader req headers) = inl resp ->
  http.readErr (http.respBody resp) = Some err ->
  doRequest env method dest headers requestBody =
    [EvDo (setHeader req headers); EvWriteHeader 500; EvClose].
Proof.
  intros H1 H2 H3. unfold doRequest, http.ReadAll. by rewrite H1, H2, H3.
Qed.

Lemma doRequest_relayed req resp :
  NewRequest env method dest requestBody = inl req ->
  client_Do env (setHeader req headers) = inl resp ->
  http.readErr (http.respBody resp) = None ->
  http.checkWriteHeaderCode (http.StatusCode resp) = true ->
  let body := http.data (http.respBody resp) in
  doRequest env method dest headers requestBody =
    [EvDo (setHeader req headers);
     EvWriteHeader (http.StatusCode resp);
     EvWrite body (writer_Write env body)] ++
    match writer_Write env body with
    | Some err =>
        [EvLog ErrorLevel "write response body failed" [zap_ErrorText "error" err]]
    | None => []
    end ++ [EvClose].
Proof.
  intros H1 H2 H3 H4 body. unfold doRequest, http.ReadAll.
  rewrite H1, H2, H3, H4. cbn [negb].
  fold body. by destruct (writer_Write env body).
Qed.

(** An upstream status code that [WriteHeader] does not take: the call
    panics, no body is written, the upstream body is closed. *)
Lemma doRequest_panics req resp :
  NewRequest env method dest requestBody = inl req ->
  client_Do env (setHeader req headers) = inl resp ->
  http.readErr (http.respBody resp) = None ->
  http.checkWriteHeaderCode (http.StatusCode resp) = false ->
  doRequest env method dest headers requestBody =
    [EvDo (setHeader req headers);
     EvWriteHeader (http.StatusCode resp);
     EvPanic (http.StatusCode resp);
     EvClose].
Proof.
  intros H1 H2 H3 H4. unfold doRequest, http.ReadAll.
  by rewrite H1, H2, H3, H4.
Qed.

(** Every run of [doRequest] passes exactly one status to the caller. *)
Lemma doRequest_one_status :
  exists code, statusesWritten (doRequest env method dest headers requestBody) = [code].
Proof.
  unfold doRequest, http.ReadAll. repeat case_match; by eexists.
Qed.

End Forwarder.

(** Each handler passes exactly one status to the caller on every
    request. *)
Lemma handlers_one_status (env : Env) (r : http.Request) :
  (exists code, statusesWritten (GetHandler env r) = [code]) /\
  (exists code, statusesWritten (PostHandler env r) = [code]).
Proof.
  split.
  - destruct (GetHandler_unfold env r) as (entry & -> & fields & ->).
    destruct (extractDest (http.RequestURI r)) as [dest [err|]]; [by eexists|].
    destruct (len dest =? 0); [by eexists|].
    apply (doRequest_one_status env "GET" dest (http.reqHeader r) None).
  - destruct (ParseForm env r) as [r' [err|]] eqn:E.
    + rewrite (PostHandler_parse_error env r r' err E). by eexists.
    + destruct (PostHandler_parse_ok env r r' E) as [fields ->].
      destruct (extractDest (http.RequestURI r)) as [dest [err|]]; [by eexists|].
      destruct (len dest =? 0); [by eexists|].
      apply (doRequest_one_status env "POST" dest (http.reqHeader r)).
Qed.

(** C4 as stated fails: an upstream that answers with status code 99 (a
    status line the client accepts) is reached, its body is read, and then
    [WriteHeader] panics on the code: no status reaches the caller. *)
Lemma doRequest_status_out_of_range_counterexample :
  let env := stubUpstream 99 "hi" in
  let dest := "http://example.test/ok" in
  let req := {| http.outMethod := "GET"; http.outURL := dest;
                http.outHeader := ∅; http.outBody := None |} in
  let tr := doRequest env "GET" dest ∅ None in
  NewRequest env "GET" dest None = inl req /\
  client_Do env (setHeader req ∅)
    = inl {| http.StatusCode := 99; http.respBody := http.mkReader "hi" None |} /\
  tr = [EvDo req; EvWriteHeader 99; EvPanic 99; EvClose] /\
  statusSent tr = None /\
  statusSent tr <> Some 99.
Proof. vm_compute. done. Qed.

(** C4, amended: the status written to the original caller by a forwarded
    request is 500 when the outbound request cannot be constructed, 400
    when its execution fails, 500 when the upstream body cannot be read,
    and otherwise the status code of the upstream when that code lies in
    100..999; in each case it is the only status written.  On an upstream
    code outside 100..999 [WriteHeader] panics and neither a status nor a
    body reaches the caller. *)
Theorem doRequest_status_mapping (env : Env) (method dest : string)
    (headers : http.Header) (requestBody : option string) :
  let tr := doRequest env method dest headers requestBody in
  (forall err,
      NewRequest env method dest requestBody = inr err ->
      statusesWritten tr = [500] /\ statusSent tr = Some 500) /\
  (forall req err,
      NewRequest env method dest requestBody = inl req ->
      client_Do env (setHeader req headers) = inr err ->
      statusesWritten tr = [400] /\ statusSent tr = Some 400) /\
  (forall req resp err,
      NewRequest env method dest requestBody = inl req ->
      client_Do env (setHeader req headers) = inl resp ->
      http.readErr (http.respBody resp) = Some err ->
      statusesWritten tr = [500] /\ statusSent tr = Some 500) /\
  (forall req resp,
      NewRequest env method dest requestBody = inl req ->
      client_Do env (setHeader req headers) = inl resp ->
      http.readErr (http.respBody resp) = None ->
      100 <= http.StatusCode resp <= 999 ->
      statusesWritten tr = [http.StatusCode resp] /\
      statusSent tr = Some (http.StatusCode resp)) /\
  (forall req resp,
      NewRequest env method dest requestBody = inl req ->
      client_Do env (setHeader req headers) = inl resp ->
      http.readErr (http.respBody resp) = None ->
      ~ (100 <= http.StatusCode resp <= 999) ->
      panicked tr = true /\ statusSent tr = None /\ bodiesWritten tr = []).
Proof.
  intros tr. subst tr. split; [|split; [|split; [|split]]].
  - intros err H. by rewrite (doRequest_construction_failed _ _ _ _ _ err H).
  - intros req err H1 H2.
    by rewrite (doRequest_execution_failed _ _ _ _ _ req err H1 H2).
  - intros req resp err H1 H2 H3.
    by rewrite (doRequest_read_failed _ _ _ _ _ req resp err H1 H2 H3).
  - intros req resp H1 H2 H3 Hcode.
    assert (http.checkWriteHeaderCode (http.StatusCode resp) = true) as H4
      by (unfold http.checkWriteHeaderCode; apply andb_true_iff; split;
          apply Z.leb_le; lia).
    rewrite (doRequest_relayed _ _ _ _ _ req resp H1 H2 H3 H4).
    by destruct (writer_Write env _).
  - intros req resp H1 H2 H3 Hcode.
    assert (http.checkWriteHeaderCode (http.StatusCode resp) = false) as H4.
    { unfold http.checkWriteHeaderCode. apply andb_false_iff.
      destruct (Z.leb_spec 100 (http.StatusCode resp)); [right|by left].
      apply Z.leb_gt. lia. }
    by rewrite (doRequest_panics _ _ _ _ _ req resp H1 H2 H3 H4).
Qed.

Lemma doRequest_status_mapping_witness :
  let dest := "http://example.test/ok" in
  let req := {| http.outMethod := "GET"; http.outURL := dest;
                http.outHeader := ∅; http.outBody := None |} in
  statusSent (doRequest stubBadURL "GET" dest ∅ None) = Some 500 /\
  statusSent (doRequest stubRefusing "GET" dest ∅ None) = Some 400 /\
  statusSent (doRequest stubBrokenBody "GET" dest ∅ None) = Some 500 /\
  statusSent (doRequest (stubUpstream 201 "hi") "GET" dest ∅ None) = Some 201 /\
  statusSent (doRequest (stubUpstream 1000 "hi") "GET" dest ∅ None) = None.
Proof.
  intros dest req. split; [|split; [|split; [|split]]].
  - apply (proj1 (doRequest_status_mapping stubBadURL "GET" dest ∅ None)
             (externalError "missing protocol scheme")).
    reflexivity.
  - apply (proj1 (proj2 (doRequest_status_mapping stubRefusing "GET" dest ∅ None))
             req (externalError "connection refused")); reflexivity.
  - apply (proj1 (proj2 (proj2 (doRequest_status_mapping stubBrokenBody "GET" dest ∅ None)))
             req {| http.StatusCode := 200;
                    http.respBody := http.mkReader "par" (Some (externalError "unexpected EOF")) |}
             (externalError "unexpected EOF")); reflexivity.
  - apply (proj1 (proj2 (proj2 (proj2
             (doRequest_status_mapping (stubUpstream 201 "hi") "GET" dest ∅ None))))
             req {| http.StatusCode := 201; http.respBody := http.mkReader "hi" None |});
      [reflexivity|reflexivity|reflexivity|simpl; lia].
  - apply (proj2 (proj2 (proj2 (proj2
             (doRequest_status_mapping (stubUpstream 1000 "hi") "GET" dest ∅ None))))
             req {| http.StatusCode := 1000; http.respBody := http.mkReader "hi" None |});
      [reflexivity|reflexivity|reflexivity|simpl; lia].
Defined.

(** C5 as stated fails: a round trip that succeeds with an upstream status
    code above 999 writes nothing to the caller; [WriteHeader] panics on the
    code and the write of the body is never reached. *)
Lemma relay_out_of_range_counterexample :
  let env := stubUpstream 1000 "hi" in
  let r := http.serverRequest "GET" "/proxy/http://example.test/ok" ∅ emptyBody in
  outboundCalls (GetHandler env r) =
    [ {| http.outMethod := "GET"; http.outURL := "http://example.test/ok";
         http.outHeader := ∅; http.outBody := None |} ] /\
  statusesWritten (GetHandler env r) = [1000] /\
  panicked (GetHandler env r) = true /\
  statusSent (GetHandler env r) = None /\
  bodiesWritten (GetHandler env r) = [] /\
  bodiesWritten (GetHandler env r) <> ["hi"].
Proof. vm_compute. done. Qed.

(** C5, amended: on a successful round trip whose upstream status code
    lies in 100..999 the relay writes the status code of the upstream first
    and then the whole upstream body as it was read; when the write of the
    body fails, the failure is logged and nothing else is written: the
    status already passed on stays the only one.  When the upstream status
    code is outside 100..999, [WriteHeader] panics, the body is not written
    and the upstream body is closed. *)
Theorem relay_status_then_body (env : Env) (method dest : string)
    (headers : http.Header) (requestBody : option string)
    (req : http.OutboundRequest) (resp : http.Response) :
  NewRequest env method dest requestBody = inl req ->
  client_Do env (setHeader req headers) = inl resp ->
  http.readErr (http.respBody resp) = None ->
  let tr := doRequest env method dest headers requestBody in
  let body := http.data (http.respBody resp) in
  (100 <= http.StatusCode resp <= 999 ->
   tr = [EvDo (setHeader req headers);
         EvWriteHeader (http.StatusCode resp);
         EvWrite body (writer_Write env body)] ++
        match writer_Write env body with
        | Some err =>
            [EvLog ErrorLevel "write response body failed" [zap_ErrorText "error" err]]
        | None => []
        end ++ [EvClose] /\
   statusesWritten tr = [http.StatusCode resp] /\
   statusSent tr = Some (http.StatusCode resp) /\
   bodiesWritten tr = [body]) /\
  (~ (100 <= http.StatusCode resp <= 999) ->
   tr = [EvDo (setHeader req headers);
         EvWriteHeader (http.StatusCode resp);
         EvPanic (http.StatusCode resp);
         EvClose] /\
   statusSent tr = None /\
   bodiesWritten tr = []).
Proof.
  intros H1 H2 H3 tr body. subst tr. split.
  - intros Hcode.
    assert (http.checkWriteHeaderCode (http.StatusCode resp) = true) as H4
      by (unfold http.checkWriteHeaderCode; apply andb_true_iff; split;
          apply Z.leb_le; lia).
    rewrite (doRequest_relayed _ _ _ _ _ req resp H1 H2 H3 H4). fold body.
    by destruct (writer_Write env body).
  - intros Hcode.
    assert (http.checkWriteHeaderCode (http.StatusCode resp) = false) as H4.
    { unfold http.checkWriteHeaderCode. apply andb_false_iff.
      destruct (Z.leb_spec 100 (http.StatusCode resp)); [right|by left].
      apply Z.leb_gt. lia. }
    by rewrite (doRequest_panics _ _ _ _ _ req resp H1 H2 H3 H4).
Qed.

Lemma relay_status_then_body_witness :
  let r := http.serverRequest "GET" "/proxy/http://example.test/ok" ∅ emptyBody in
  statusesWritten (GetHandler (stubUpstream 201 "hi") r) = [201] /\
  bodiesWritten (GetHandler (stubUpstream 201 "hi") r) = ["hi"] /\
  statusesWritten (GetHandler (stubClientGone 201 "hi") r) = [201] /\
  logged (doRequest (stubClientGone 201 "hi") "GET" "http://example.test/ok" ∅ None) =
    [(ErrorLevel, "write response body failed",
      [zap_ErrorText "error" (externalError "broken pipe")])] /\
  bodiesWritten (GetHandler (stubUpstream 99 "hi") r) = [].
Proof.
  intros r.
  pose (req := {| http.outMethod := "GET"; http.outURL := "http://example.test/ok";
                  http.outHeader := ∅; http.outBody := None |}).
  pose (resp := {| http.StatusCode := 201; http.respBody := http.mkReader "hi" None |}).
  pose (resp99 := {| http.StatusCode := 99; http.respBody := http.mkReader "hi" None |}).
  destruct (proj1 (relay_status_then_body (stubUpstream 201 "hi") "GET"
                     "http://example.test/ok" ∅ None req resp
                     eq_refl eq_refl eq_refl))
    as (_ & Hs & _ & Hb); [simpl; lia|].
  destruct (proj1 (relay_status_then_body (stubClientGone 201 "hi") "GET"
                     "http://example.test/ok" ∅ None req resp
                     eq_refl eq_refl eq_refl))
    as (Ht & Hs' & _); [simpl; lia|].
  destruct (proj2 (relay_status_then_body (stubUpstream 99 "hi") "GET"
                     "http://example.test/ok" ∅ None req resp99
                     eq_refl eq_refl eq_refl))
    as (_ & _ & Hb99); [simpl; lia|].
  split; [exact Hs|]. split; [exact Hb|]. split; [exact Hs'|].
  split; [rewrite Ht; reflexivity|exact Hb99].
Defined.

(** ** The POST handler *)

(** The call the POST handler makes once the form has parsed and the
    destination is there: the inbound headers and the encoding of [r.Form]
    go to [doRequest]; the client sees that request when the destination
    parses as a URL, and no request otherwise. *)
Lemma PostHandler_forward_call (env : Env) (r r' : http.Request) (dest : string) :
  ParseForm env r = (r', None) ->
  extractDest (http.RequestURI r) = (dest, None) ->
  dest <> EmptyString ->
  exists form fields,
    http.Form r' = Some form /\
    PostHandler env r =
      EvLog DebugLevel "POST proxy" fields ::
      doRequest env "POST" dest (http.reqHeader r) (Some (url.Encode form)) /\
    outboundCalls (PostHandler env r) =
      match url_Parse env dest with
      | None =>
          [ {| http.outMethod := "POST"; http.outURL := dest;
               http.outHeader := http.reqHeader r;
               http.outBody := Some (url.Encode form) |} ]
      | Some _ => []
      end.
Proof.
  intros HP HD Hne.
  destruct (ParseForm_Form_is_Some env r) as [form Hform].
  rewrite HP in Hform. simpl in Hform.
  destruct (PostHandler_parse_ok env r r' HP) as [fields Htr].
  rewrite HD, Hform in Htr. simpl in Htr.
  destruct (Z.eqb_spec (len dest) 0) as [E|_].
  { apply len_zero_iff in E. done. }
  exists form, fields. split; [done|]. split; [done|].
  rewrite Htr. unfold doRequest, NewRequest. simpl.
  destruct (url_Parse env dest); [done|]. simpl.
  unfold http.ReadAll. by repeat case_match.
Qed.

(** C6: for a POST request whose form parses and whose destination is
    extracted and not empty, the handler passes on the encoding of the
    parsed form ([r.Form] after [ParseForm], keys in sorted order) as the
    outbound body, not the bytes of the inbound body, and attaches the
    inbound headers as they are. *)
Theorem PostHandler_forwards_encoded_form (env : Env) (r r' : http.Request)
    (dest : string) :
  ParseForm env r = (r', None) ->
  extractDest (http.RequestURI r) = (dest, None) ->
  dest <> EmptyString ->
  exists form,
    http.Form r' = Some form /\
    (exists fields,
        PostHandler env r =
          EvLog DebugLevel "POST proxy" fields ::
          doRequest env "POST" dest (http.reqHeader r) (Some (url.Encode form))) /\
    (forall req, In req (outboundCalls (PostHandler env r)) ->
       http.outBody req = Some (url.Encode form) /\
       http.outHeader req = http.reqHeader r /\
       http.outMethod req = "POST" /\ http.outURL req = dest) /\
    (url_Parse env dest = None ->
     outboundCalls (PostHandler env r) =
       [ {| http.outMethod := "POST"; http.outURL := dest;
            http.outHeader := http.reqHeader r;
            http.outBody := Some (url.Encode form) |} ]).
Proof.
  intros HP HD Hne.
  destruct (PostHandler_forward_call env r r' dest HP HD Hne)
    as (form & fields & Hform & Htr & Hout).
  exists form. split; [done|]. split; [by exists fields|].
  rewrite Hout. split.
  - intros req Hin. destruct (url_Parse env dest); [done|].
    destruct Hin as [<-|[]]. done.
  - by intros ->.
Qed.

Lemma PostHandler_forwards_encoded_form_witness :
  let env := stubUpstream 201 "hi" in
  let r := http.serverRequest "POST" "/proxy/http://example.test/ok" formHeader
             (http.mkReader "b=2&a=1" None) in
  outboundCalls (PostHandler env r) =
    [ {| http.outMethod := "POST"; http.outURL := "http://example.test/ok";
         http.outHeader := formHeader; http.outBody := Some "a=1&b=2" |} ] /\
  "a=1&b=2" <> "b=2&a=1".
Proof.
  intros env r.
  destruct (PostHandler_forwards_encoded_form env r (ParseForm env r).1
              "http://example.test/ok")
    as (form & Hform & _ & _ & Hout).
  - vm_compute. reflexivity.
  - reflexivity.
  - discriminate.
  - split; [|discriminate].
    rewrite Hout by reflexivity. vm_compute in Hform. injection Hform as <-.
    vm_compute. reflexivity.
Defined.

(** C7 as stated fails: a POST request whose body is not valid URL-encoded
    form data, sent without a form content type, is not rejected; its body
    is never parsed, and the request is forwarded. *)
Lemma PostHandler_unparsed_body_counterexample :
  let env := stubUpstream 201 "hi" in
  let r := http.serverRequest "POST" "/proxy/http://example.test/ok" ∅
             (http.mkReader "%zz" None) in
  (url.ParseQuery "%zz").2 = Some (EscapeError "%zz") /\
  statusesWritten (PostHandler env r) = [201] /\
  outboundCalls (PostHandler env r) =
    [ {| http.outMethod := "POST"; http.outURL := "http://example.test/ok";
         http.outHeader := ∅; http.outBody := Some "" |} ].
Proof. vm_compute. done. Qed.

(** C7, amended: whenever [ParseForm] reports an error the POST handler
    logs it and writes status 400, and does nothing else: no destination is
    extracted and no outbound call is made, whatever the path.  That is the
    case in particular for a POST request that has not been parsed yet,
    whose content type is [application/x-www-form-urlencoded] and whose
    body is not valid URL-encoded form data. *)
Theorem PostHandler_form_error_rejected (env : Env) (r : http.Request) :
  (forall r' err,
      ParseForm env r = (r', Some err) ->
      PostHandler env r =
        [EvLog ErrorLevel "parse form failed" [zap_ErrorText "error" err];
         EvWriteHeader 400]) /\
  (forall rd,
      http.Method r = "POST" ->
      http.PostForm r = None ->
      http.Body r = Some rd ->
      (let ct := http.Header_Get (http.reqHeader r) "Content-Type" in
       (mime_ParseMediaType env
          (if String.eqb ct "" then "application/octet-stream" else ct)).1
       = "application/x-www-form-urlencoded") ->
      (url.ParseQuery (http.data rd)).2 <> None ->
      statusesWritten (PostHandler env r) = [400] /\
      outboundCalls (PostHandler env r) = []).
Proof.
  split.
  - intros r' err H. by apply PostHandler_parse_error with r'.
  - intros rd HM HPF HB Hct Hq.
    assert (exists r' err, ParseForm env r = (r', Some err)) as (r' & err & HP).
    { unfold ParseForm, parsePostForm. rewrite HPF, HM, HB. simpl in Hct |- *.
      destruct (mime_ParseMediaType env _) as [ct merr]. simpl in Hct. subst ct.
      simpl. unfold http.ReadAll.
      destruct (url.ParseQuery (http.data rd)) as [vs [e|]]; [|done].
      repeat case_match; simplify_eq; eauto. }
    by rewrite (PostHandler_parse_error env r r' err HP).
Qed.

Lemma PostHandler_form_error_rejected_witness :
  let env := stubUpstream 201 "hi" in
  let r := http.serverRequest "POST" "/not-proxy/x" formHeader
             (http.mkReader "a=%zz" None) in
  statusesWritten (PostHandler env r) = [400] /\
  outboundCalls (PostHandler env r) = [].
Proof.
  intros env r.
  apply (proj2 (PostHandler_form_error_rejected env r) (http.mkReader "a=%zz" None)).
  - reflexivity.
  - reflexivity.
  - reflexivity.
  - vm_compute. reflexivity.
  - vm_compute. discriminate.
Defined.

(** ** Forms: merging and encoding *)

Section Values.

Lemma append_assoc (a b c : string) : (a +:+ b) +:+ c = a +:+ b +:+ c.
Proof.
  induction a as [|x a IH]; [done|].
  change (String x ((a +:+ b) +:+ c) = String x (a +:+ b +:+ c)).
  by f_equal.
Qed.

Lemma append_nil_r (a : string) : a +:+ "" = a.
Proof.
  induction a as [|x a IH]; [done|].
  change (String x (a +:+ "") = String x a). by f_equal.
Qed.

Lemma occursIn_refl_app (pre sub post : string) :
  occursIn sub (pre +:+ sub +:+ post).
Proof. by exists pre, post. Qed.

Lemma occursIn_app_r sub s t : occursIn sub s -> occursIn sub (s +:+ t).
Proof.
  intros (pre & post & ->). exists pre, (post +:+ t).
  by rewrite !append_assoc.
Qed.

Lemma occursIn_app_l sub s t : occursIn sub s -> occursIn sub (t +:+ s).
Proof.
  intros (pre & post & ->). exists (t +:+ pre), post.
  by rewrite !append_assoc.
Qed.

Lemma copyValues_lookup (dst src : url.Values) (k : string) :
  copyValues dst src !! k =
    match src !! k with
    | Some vs => Some (default [] (dst !! k) ++ vs)
    | None => dst !! k
    end.
Proof.
  unfold copyValues.
  apply (map_fold_weak_ind
           (fun (res : url.Values) (m : url.Values) =>
              res !! k = match m !! k with
                         | Some vs => Some (default [] (dst !! k) ++ vs)
                         | None => dst !! k
                         end)).
  - by rewrite lookup_empty.
  - intros i x m res Hi IH.
    destruct (decide (i = k)) as [->|Hne].
    + rewrite !lookup_insert_eq. rewrite IH, Hi. done.
    + by rewrite !lookup_insert_ne.
Qed.

Lemma copyValues_empty_l (m : url.Values) : copyValues ∅ m = m.
Proof.
  apply map_eq. intros k. rewrite copyValues_lookup, lookup_empty.
  by destruct (m !! k).
Qed.

Lemma copyValues_empty_r (m : url.Values) : copyValues m ∅ = m.
Proof. apply map_eq. intros k. by rewrite copyValues_lookup, lookup_empty. Qed.

(** [r.Form] of a request parsed for the first time: the values of the
    body followed by those of the query of the URL. *)
Lemma ParseForm_merges env r r' err u :
  http.Form r = None ->
  http.PostForm r = None ->
  http.reqURL r = Some u ->
  ParseForm env r = (r', err) ->
  exists postForm,
    http.PostForm r' = Some postForm /\
    http.Form r' =
      Some (copyValues postForm (url.ParseQuery (http.RawQuery u)).1).
Proof.
  intros HF HPF HU. unfold ParseForm. rewrite HF, HPF, HU.
  destruct (if _ : bool then parsePostForm env r else (None, None)) as [pf e].
  destruct (url.ParseQuery (http.RawQuery u)) as [nv e'] eqn:Eq. simpl.
  destruct (Nat.ltb_spec 0 (size (default ∅ pf))) as [Hs|Hs].
  - intros [= <- <-]. simpl. eexists; split; [done|].
    by rewrite copyValues_empty_l.
  - intros [= <- <-]. simpl. eexists; split; [done|].
    assert (default ∅ pf = ∅) as -> by (apply map_size_empty_inv; lia).
    by rewrite copyValues_empty_l.
Qed.

Lemma insertKey_In x k l : In x (url.insertKey k l) <-> x = k \/ In x l.
Proof.
  induction l as [|y l IH]; simpl; [intuition congruence|].
  destruct (String.leb k y); simpl; rewrite ?IH; intuition congruence.
Qed.

Lemma sortKeys_In x l : In x (url.sortKeys l) <-> In x l.
Proof.
  induction l as [|y l IH]; simpl; [done|].
  rewrite insertKey_In, IH. intuition congruence.
Qed.

Lemma encodeKey_mono x buf k vs :
  occursIn x buf -> occursIn x (url.encodeKey buf k vs).
Proof.
  unfold url.encodeKey. revert buf.
  induction vs as [|v vs IH]; intros buf H; simpl; [done|].
  apply IH. apply occursIn_app_r.
  destruct (0 <? len buf); [by apply occursIn_app_r|done].
Qed.

Lemma encodeKey_has buf k vs v :
  In v vs ->
  occursIn (url.QueryEscape k +:+ "=" +:+ url.QueryEscape v)
           (url.encodeKey buf k vs).
Proof.
  revert buf. induction vs as [|w vs IH]; intros buf; [done|].
  intros [->|Hin].
  - change (url.encodeKey buf k (v :: vs)) with
      (url.encodeKey
         ((if 0 <? len buf then buf +:+ "&" else buf)
            +:+ url.QueryEscape k +:+ "=" +:+ url.QueryEscape v) k vs).
    apply encodeKey_mono.
    exists (if 0 <? len buf then buf +:+ "&" else buf), EmptyString.
    by rewrite append_nil_r.
  - apply (IH _ Hin).
Qed.

Lemma encodeKeys_mono (m : url.Values) x keys buf :
  occursIn x buf ->
  occursIn x (fold_left (fun buf k => url.encodeKey buf k (default [] (m !! k)))
                keys buf).
Proof.
  revert buf. induction keys as [|k keys IH]; intros buf H; simpl; [done|].
  by apply IH, encodeKey_mono.
Qed.

Lemma encodeKeys_has (m : url.Values) keys buf k vs v :
  m !! k = Some vs -> In v vs -> In k keys ->
  occursIn (url.QueryEscape k +:+ "=" +:+ url.QueryEscape v)
    (fold_left (fun buf k => url.encodeKey buf k (default [] (m !! k)))
       keys buf).
Proof.
  intros Hk Hv. revert buf.
  induction keys as [|k' keys IH]; intros buf; [done|].
  intros [->|Hin]; simpl.
  - apply encodeKeys_mono. rewrite Hk. by apply encodeKey_has.
  - by apply IH.
Qed.

(** Every pair of the form appears, escaped, in its encoding. *)
Lemma Encode_contains (m : url.Values) k vs v :
  m !! k = Some vs -> In v vs ->
  occursIn (url.QueryEscape k +:+ "=" +:+ url.QueryEscape v) (url.Encode m).
Proof.
  intros Hk Hv. unfold url.Encode.
  destruct (Nat.eqb_spec (size m) 0) as [E|_].
  { apply map_size_empty_inv in E. subst m. by rewrite lookup_empty in Hk. }
  assert (In k (url.sortKeys (map fst (map_to_list m)))) as Hin.
  { apply sortKeys_In, in_map_iff. exists (k, vs). split; [done|].
    by apply list_elem_of_In, elem_of_map_to_list. }
  by apply encodeKeys_has with vs.
Qed.

(** Cutting at the first [?] skips the bytes that are not [?]. *)
Lemma Cut_question_cons c s :
  c <> "?"%char ->
  (strings.Cut (String c s) "?").1.2 = (strings.Cut s "?").1.2.
Proof.
  intros Hc. unfold strings.Cut.
  assert (Ascii.eqb "?" c = false) as Hc' by (apply Ascii.eqb_neq; congruence).
  cbn [strings.Index strings.HasPrefix]. rewrite Hc'.
  pose proof (Index_lower s "?") as Hlo.
  destruct (Z.eqb_spec (strings.Index s "?") (-1)) as [E|E].
  - rewrite E. done.
  - destruct (Z.leb_spec 0 (strings.Index s "?" + 1)); [|lia].
    destruct (Z.leb_spec 0 (strings.Index s "?")); [|lia].
    unfold sliceFrom. simpl snd.
    replace (Z.to_nat (strings.Index s "?" + 1 + len "?"))
      with (S (Z.to_nat (strings.Index s "?" + len "?")))
      by (unfold len; simpl; lia).
    done.
Qed.

Lemma Cut_question_proxy dest :
  (strings.Cut ("/proxy/" +:+ dest) "?").1.2 = (strings.Cut dest "?").1.2.
Proof.
  change ("/proxy/" +:+ dest) with
    (String "/" (String "p" (String "r" (String "o" (String "x"
       (String "y" (String "/" dest))))))).
  by rewrite !Cut_question_cons by discriminate.
Qed.

End Values.

(** C10: the body forwarded by the POST handler is the encoding of the
    merged form [r.Form]: the values of the inbound body followed, key by
    key, by the values of the query string of the request target.  For a
    POST whose destination carries a query string, each key/value pair of
    that query appears in the forwarded body. *)
Theorem PostHandler_forwards_query_params (env : Env) (dest : string)
    (h : http.Header) (body : http.Reader) (r' : http.Request) :
  let r := http.serverRequest "POST" ("/proxy/" +:+ dest) h body in
  let query := (strings.Cut dest "?").1.2 in
  dest <> EmptyString ->
  ParseForm env r = (r', None) ->
  url_Parse env dest = None ->
  exists postForm form,
    http.PostForm r' = Some postForm /\
    http.Form r' = Some form /\
    form = copyValues postForm (url.ParseQuery query).1 /\
    outboundCalls (PostHandler env r) =
      [ {| http.outMethod := "POST"; http.outURL := dest;
           http.outHeader := h; http.outBody := Some (url.Encode form) |} ] /\
    forall k vs v,
      (url.ParseQuery query).1 !! k = Some vs -> In v vs ->
      form !! k = Some (default [] (postForm !! k) ++ vs) /\
      occursIn (url.QueryEscape k +:+ "=" +:+ url.QueryEscape v) (url.Encode form).
Proof.
  intros r query Hne HP HU.
  destruct (ParseForm_merges env r r' None
              {| http.RawQuery := (strings.Cut ("/proxy/" +:+ dest) "?").1.2 |}
              eq_refl eq_refl eq_refl HP) as (postForm & HPF & HF).
  simpl in HF. rewrite Cut_question_proxy in HF. fold query in HF.
  destruct (PostHandler_forward_call env r r' dest HP
              (extractDest_prefix dest) Hne)
    as (form & fields & HF' & _ & Hout).
  rewrite HF in HF'. injection HF' as <-. rewrite HU in Hout.
  eexists postForm, _. split; [done|]. split; [done|]. split; [done|].
  split; [done|].
  intros k vs v Hk Hv.
  assert (copyValues postForm (url.ParseQuery query).1 !! k
          = Some (default [] (postForm !! k) ++ vs)) as Hlk
    by by rewrite copyValues_lookup, Hk.
  split; [done|].
  apply Encode_contains with (default [] (postForm !! k) ++ vs); [done|].
  apply in_or_app. by right.
Qed.

Lemma PostHandler_forwards_query_params_witness :
  let env := stubUpstream 201 "hi" in
  let r := http.serverRequest "POST" "/proxy/http://example.test/ok?x=1" formHeader
             (http.mkReader "a=1" None) in
  outboundCalls (PostHandler env r) =
    [ {| http.outMethod := "POST"; http.outURL := "http://example.test/ok?x=1";
         http.outHeader := formHeader; http.outBody := Some "a=1&x=1" |} ] /\
  occursIn "x=1" "a=1&x=1".
Proof.
  intros env r.
  destruct (PostHandler_forwards_query_params env "http://example.test/ok?x=1"
              formHeader (http.mkReader "a=1" None) (ParseForm env r).1)
    as (postForm & form & HPF & HF & _ & Hout & Hpairs).
  - discriminate.
  - vm_compute. reflexivity.
  - reflexivity.
  - vm_compute in HF. injection HF as <-.
    split.
    + etrans; [exact Hout|]. vm_compute. reflexivity.
    + destruct (Hpairs "x" ["1"] "1") as [_ Hocc].
      * vm_compute. reflexivity.
      * by left.
      * exact Hocc.
Defined.

(** ** The server lifecycle *)

Section Lifecycle.

Lemma Start_running c sc ka :
  lifecycleState c = Running ->
  Start c sc ka = (c, [], Some (errorString "rest server already started")).
Proof. unfold lifecycleState, Start. by destruct (server c). Qed.

Lemma Start_stopped c sc ka :
  lifecycleState c = Stopped ->
  (Start c sc ka).2 = None /\ lifecycleState (Start c sc ka).1.1 = Running.
Proof. unfold lifecycleState, Start. by destruct (server c). Qed.

Lemma Shutdown_stopped env c :
  lifecycleState c = Stopped ->
  Shutdown env c = (c, [], Some (errorString "proxy server not started")).
Proof. unfold lifecycleState, Shutdown. by destruct (server c). Qed.

Lemma Shutdown_running env c :
  lifecycleState c = Running ->
  (Shutdown env c).2 = None /\ lifecycleState (Shutdown env c).1.1 = Stopped.
Proof. unfold lifecycleState, Shutdown. by destruct (server c). Qed.

Lemma Shutdown_clears env c : lifecycleState (Shutdown env c).1.1 = Stopped.
Proof.
  unfold lifecycleState, Shutdown. by destruct (server c) eqn:E; simpl; rewrite ?E.
Qed.

End Lifecycle.

(** A successful [Start] starts one goroutine, for the address of the
    server and the channel it was given. *)
Lemma Start_spawns (c : ProxyServer) (sc : option ChanRef) (ka : bool) :
  lifecycleState c = Stopped ->
  omap (fun e => match e with EvGo t => Some t | _ => None end)
    (Start c sc ka).1.2
  = [ {| taskAddr := localAddr c; taskSigChan := sc |} ].
Proof.
  unfold lifecycleState, Start. destruct (server c); [done|]. intros _.
  cbn [fst snd]. rewrite !omap_app.
  assert (forall (l : list string) msg key,
             omap (fun e => match e with EvGo t => Some t | _ => None end)
               (map (fun x => EvLog InfoLevel msg [zap_String key x]) l) = [])
    as Hlogs by (intros l msg key; by induction l).
  by rewrite !Hlogs.
Qed.

(** C8: the lifecycle has two states, read off the instance handle.
    [Start] fails with "rest server already started" when the server is
    running and succeeds, making it running, when it is stopped; [Shutdown]
    fails with "proxy server not started" when the server is stopped and
    succeeds when it is running.  After [Shutdown] the handle is cleared
    whatever the graceful shutdown returned, so a following [Start]
    succeeds. *)
Theorem lifecycle_two_states (env : Env) (c : ProxyServer)
    (sigChan sigChan' : option ChanRef) (keepalive keepalive' : bool) :
  (lifecycleState c = Running ->
   Start c sigChan keepalive =
     (c, [], Some (errorString "rest server already started"))) /\
  (lifecycleState c = Stopped ->
   (Start c sigChan keepalive).2 = None /\
   lifecycleState (Start c sigChan keepalive).1.1 = Running) /\
  (lifecycleState c = Stopped ->
   Shutdown env c = (c, [], Some (errorString "proxy server not started"))) /\
  (lifecycleState c = Running -> (Shutdown env c).2 = None) /\
  lifecycleState (Shutdown env c).1.1 = Stopped /\
  (Start (Shutdown env c).1.1 sigChan' keepalive').2 = None.
Proof.
  split; [apply Start_running|]. split; [apply Start_stopped|].
  split; [apply Shutdown_stopped|]. split; [apply Shutdown_running|].
  split; [apply Shutdown_clears|].
  apply Start_stopped, Shutdown_clears.
Qed.

Lemma lifecycle_two_states_witness :
  let c0 := NewProxyServer "0.0.0.0:8000" in
  let c1 := (Start c0 (Some 0%nat) false).1.1 in
  let c2 := (Shutdown stubShutdownTimeout c1).1.1 in
  (Start c0 (Some 0%nat) false).2 = None /\
  (Start c1 (Some 0%nat) false).2 = Some (errorString "rest server already started") /\
  (Shutdown stubShutdownTimeout c1).2 = None /\
  (Shutdown stubShutdownTimeout c2).2 = Some (errorString "proxy server not started") /\
  (Start c2 None true).2 = None.
Proof.
  intros c0 c1 c2.
  pose proof (lifecycle_two_states stubShutdownTimeout c0 (Some 0%nat) None false true)
    as (_ & H0 & _).
  pose proof (lifecycle_two_states stubShutdownTimeout c1 (Some 0%nat) None false true)
    as (H1 & _ & _ & H1' & _ & H1'').
  pose proof (lifecycle_two_states stubShutdownTimeout c2 (Some 0%nat) None false true)
    as (_ & _ & H2 & _).
  split; [apply H0; reflexivity|].
  split; [rewrite H1; reflexivity|].
  split; [apply H1'; reflexivity|].
  split; [rewrite H2; reflexivity|].
  exact H1''.
Defined.

(** ** The crash signal *)

Section CrashSignal.
Context (addr : string) (err : error).

(** Once [ListenAndServe] has returned an error the goroutine stands at
    the send, or at its end when the channel is nil. *)
Lemma task_after_listen sc :
  runTask 2 addr (Some err) (spawn sc) =
    {| pc := match sc with Some _ => AtSend | None => AtEnd end;
       sigChan := sc;
       taskLog :=
         [EvLog InfoLevel "proxy server started" [zap_String "addr" addr];
          EvLog InfoLevel "proxy Server stopped"
            [zap_String "addr" addr; zap_ErrorText "cause" err]] |}.
Proof. reflexivity. Qed.

(** A send that blocks leaves the goroutine where it is, however many
    steps it is given. *)
Lemma task_blocked_forever st ch n :
  pc st = AtSend -> sigChan st = Some ch -> chanSend ch true = Blocks ->
  runTask n addr (Some err) st = st.
Proof.
  intros Hpc Hch Hb.
  assert (taskStep addr (Some err) st = st) as Hstep
    by (unfold taskStep; by rewrite Hpc, Hch, Hb).
  induction n as [|n IH]; [done|].
  cbn [runTask]. by rewrite Hstep.
Qed.

Lemma chanSend_blocks_iff ch v :
  chanSend ch v = Blocks <->
  chanClosed ch = false /\ chanRecvq ch = 0%nat /\
  (chanCap ch <= length (chanBuf ch))%nat.
Proof.
  unfold chanSend. destruct (chanClosed ch); [intuition congruence|].
  destruct (Nat.ltb_spec 0 (chanRecvq ch)); [split; [done|lia]|].
  destruct (Nat.ltb_spec (length (chanBuf ch)) (chanCap ch));
    [split; [done|lia]|].
  split; [|done]. intros _. repeat split; lia.
Qed.

End CrashSignal.

(** C9 as stated fails: on an unbuffered channel that nobody receives
    from, the goroutine reaches the send after [ListenAndServe] has
    returned and never gets past it. *)
Lemma crash_signal_blocks_counterexample :
  let ret := Some (externalError "listen tcp 0.0.0.0:8000: bind: address already in use") in
  let st := runTask 2 "0.0.0.0:8000" ret (spawn (Some (make_chan 0))) in
  chanRecvq (make_chan 0) = 0%nat /\
  pc st = AtSend /\
  ~ (exists n, pc (runTask n "0.0.0.0:8000" ret st) = AtEnd).
Proof.
  intros ret st. split; [done|]. split; [done|].
  intros [n Hn].
  assert (runTask n "0.0.0.0:8000" ret st = st) as E
    by (apply (task_blocked_forever _ _ st (make_chan 0)); reflexivity).
  rewrite E in Hn. discriminate Hn.
Qed.

(** C9, amended: when [ListenAndServe] returns an error the goroutine logs
    it and, if the crash channel is not nil, sends [true] on it with a
    plain send.  The send completes in one step when the channel is open
    and a receiver waits or the buffer has room, as for the channel of
    capacity one that [main] creates; with no receiver and no room the
    goroutine stays at the send.  With a nil channel nothing is sent. *)
Theorem crash_signal_send (addr : string) (err : error) (ch : Chan) :
  let ret := Some err in
  let st := runTask 2 addr ret (spawn (Some ch)) in
  (pc st = AtSend /\ sigChan st = Some ch) /\
  (chanClosed ch = false ->
   (0 < chanRecvq ch \/ length (chanBuf ch) < chanCap ch)%nat ->
   exists ch',
     chanSend ch true = Sent ch' /\
     pc (taskStep addr ret st) = AtEnd /\
     sigChan (taskStep addr ret st) = Some ch' /\
     ((0 < chanRecvq ch)%nat /\ chanRecvq ch' = (chanRecvq ch - 1)%nat \/
      chanRecvq ch = 0%nat /\ chanBuf ch' = chanBuf ch ++ [true])) /\
  (chanClosed ch = false ->
   chanRecvq ch = 0%nat ->
   (chanCap ch <= length (chanBuf ch))%nat ->
   forall n, runTask n addr ret st = st) /\
  (let st1 := runTask 3 addr ret (spawn (Some resetServerChan)) in
   pc st1 = AtEnd /\ (chanBuf <$> sigChan st1) = Some [true]) /\
  pc (runTask 2 addr ret (spawn None)) = AtEnd.
Proof.
  intros ret st. subst ret st. rewrite task_after_listen.
  split; [done|]. split; [|split; [|done]].
  - intros Hopen Hroom. unfold taskStep. cbn [pc sigChan].
    unfold chanSend. rewrite Hopen.
    destruct (Nat.ltb_spec 0 (chanRecvq ch)) as [Hr|Hr].
    + eexists. split; [done|]. split; [done|]. split; [done|]. left. done.
    + destruct (Nat.ltb_spec (length (chanBuf ch)) (chanCap ch)) as [Hb|Hb]; [|lia].
      eexists. split; [done|]. split; [done|]. split; [done|]. right.
      split; [lia|done].
  - intros Hopen Hr Hfull n.
    apply task_blocked_forever with ch; [done..|].
    by apply chanSend_blocks_iff.
Qed.

Lemma crash_signal_send_witness :
  let addr := "0.0.0.0:8000" in
  let ret := Some (externalError "http: Server closed") in
  pc (runTask 3 addr ret (spawn (Some resetServerChan))) = AtEnd /\
  (forall n, pc (runTask n addr ret (runTask 2 addr ret (spawn (Some (make_chan 0))))) = AtSend).
Proof.
  intros addr ret. split.
  - pose proof (crash_signal_send addr (externalError "http: Server closed") resetServerChan)
      as (_ & Hsend & _).
    destruct Hsend as (ch' & _ & Hpc & _).
    + reflexivity.
    + right. simpl. lia.
    + exact Hpc.
  - intros n.
    pose proof (crash_signal_send addr (externalError "http: Server closed") (make_chan 0))
      as (_ & _ & Hblock & _).
    rewrite Hblock; [reflexivity|reflexivity|reflexivity|simpl; lia].
Defined.

(** * Further properties of the proxy *)

(** ** The resolver *)

(** X1: [extractDest] succeeds exactly on the paths that consist of
    ["/proxy/"] followed by the destination it returns; the destination is
    then seven bytes shorter than the path, and every other path gives the
    empty destination with the error "unknown path". *)
Theorem extractDest_success_iff (p dest : string) :
  (extractDest p = (dest, None) <-> p = "/proxy/" +:+ dest) /\
  (extractDest p = (dest, None) -> len dest = len p - 7) /\
  (forall err, (extractDest p).2 = Some err ->
     extractDest p = (EmptyString, Some (errorString "unknown path"))).
Proof.
  split; [apply extractDest_ok_iff|]. split.
  - intros H. apply extractDest_ok_iff in H as ->. rewrite len_app.
    change (len "/proxy/") with 7. lia.
  - intros err H. destruct (strings.HasPrefix p "/proxy/") eqn:E.
    + apply HasPrefix_inv in E as [t ->].
      by rewrite extractDest_prefix in H.
    + by apply extractDest_no_prefix.
Qed.

Lemma extractDest_success_iff_witness :
  len "http://a/b" = len "/proxy/http://a/b" - 7 /\
  extractDest "/Proxy/x" = (EmptyString, Some (errorString "unknown path")).
Proof.
  split.
  - apply (proj1 (proj2 (extractDest_success_iff "/proxy/http://a/b" "http://a/b"))).
    reflexivity.
  - apply (proj2 (proj2 (extractDest_success_iff "/Proxy/x" ""))
             (errorString "unknown path")).
    reflexivity.
Defined.

(** ** The handlers on a path they cannot use *)

(** X2: on a request whose path does not start with ["/proxy/"] the GET
    handler writes the trace record, status 400 and the debug entry
    "extract destination failed", and nothing else; the POST handler does
    the same once the form has parsed.  Neither calls the client. *)
Theorem handlers_unknown_path (env : Env) (r : http.Request) :
  (forall s, http.RequestURI r <> "/proxy/" +:+ s) ->
  (exists fields,
      GetHandler env r =
        [EvLog DebugLevel "GET proxy" fields;
         EvWriteHeader 400;
         EvLog DebugLevel "extract destination failed"
           [zap_ErrorText "error" (errorString "unknown path")]]) /\
  (forall r', ParseForm env r = (r', None) ->
     exists fields,
       PostHandler env r =
         [EvLog DebugLevel "POST proxy" fields;
          EvWriteHeader 400;
          EvLog DebugLevel "extract destination failed"
            [zap_ErrorText "error" (errorString "unknown path")]]) /\
  statusesWritten (PostHandler env r) = [400] /\
  outboundCalls (PostHandler env r) = [].
Proof.
  intros Hno.
  assert (extractDest (http.RequestURI r)
          = (EmptyString, Some (errorString "unknown path"))) as HD.
  { apply extractDest_no_prefix.
    destruct (strings.HasPrefix (http.RequestURI r) "/proxy/") eqn:E; [|done].
    apply HasPrefix_inv in E as [t Ht]. by destruct (Hno t). }
  split; [|split].
  - destruct (GetHandler_unfold env r) as (entry & -> & fields & ->).
    rewrite HD. by exists fields.
  - intros r' HP. destruct (PostHandler_parse_ok env r r' HP) as [fields ->].
    rewrite HD. by exists fields.
  - destruct (ParseForm env r) as [r' [err|]] eqn:E.
    + by rewrite (PostHandler_parse_error env r r' err E).
    + destruct (PostHandler_parse_ok env r r' E) as [fields ->].
      by rewrite HD.
Qed.

Lemma handlers_unknown_path_witness :
  let env := stubUpstream 201 "hi" in
  let r := http.serverRequest "GET" "/status" ∅ emptyBody in
  statusesWritten (GetHandler env r) = [400] /\
  outboundCalls (GetHandler env r) = [] /\
  statusesWritten (PostHandler env r) = [400].
Proof.
  intros env r.
  destruct (handlers_unknown_path env r) as ([fields HG] & _ & HP & _).
  - intros s H. simpl in H. discriminate H.
  - rewrite HG. split; [reflexivity|]. split; [reflexivity|exact HP].
Defined.

(** ** The GET handler *)

(** The call the GET handler makes on a path it can use. *)
Lemma GetHandler_forward_call (env : Env) (r : http.Request) (dest : string) :
  http.RequestURI r = "/proxy/" +:+ dest ->
  dest <> EmptyString ->
  (exists fields,
      GetHandler env r =
        EvLog DebugLevel "GET proxy" fields ::
        doRequest env "GET" dest (http.reqHeader r) None) /\
  outboundCalls (GetHandler env r) =
    match url_Parse env dest with
    | None =>
        [ {| http.outMethod := "GET"; http.outURL := dest;
             http.outHeader := http.reqHeader r; http.outBody := None |} ]
    | Some _ => []
    end.
Proof.
  intros HU Hne.
  destruct (GetHandler_unfold env r) as (entry & Htr & fields & ->).
  rewrite HU, extractDest_prefix in Htr.
  destruct (Z.eqb_spec (len dest) 0) as [E|_].
  { apply len_zero_iff in E. done. }
  split; [by exists fields|].
  rewrite Htr. unfold doRequest, NewRequest. simpl.
  destruct (url_Parse env dest); [done|]. simpl.
  unfold http.ReadAll. by repeat case_match.
Qed.

(** X3: on a path ["/proxy/"] followed by a non-empty destination the GET
    handler forwards a GET request to that destination with the inbound
    headers as they are and without a body; the body and the form of the
    inbound request play no part.  The client is called once when the
    destination parses as a URL and not at all otherwise. *)
Theorem GetHandler_forwards (env : Env) (r : http.Request) (dest : string) :
  http.RequestURI r = "/proxy/" +:+ dest ->
  dest <> EmptyString ->
  (exists fields,
      GetHandler env r =
        EvLog DebugLevel "GET proxy" fields ::
        doRequest env "GET" dest (http.reqHeader r) None) /\
  outboundCalls (GetHandler env r) =
    match url_Parse env dest with
    | None =>
        [ {| http.outMethod := "GET"; http.outURL := dest;
             http.outHeader := http.reqHeader r; http.outBody := None |} ]
    | Some _ => []
    end.
Proof. apply GetHandler_forward_call. Qed.

Lemma GetHandler_forwards_witness :
  let env := stubUpstream 201 "hi" in
  let h : http.Header := {[ "Authorization" := ["Bearer t"] ]} in
  let r := http.serverRequest "GET" "/proxy/http://example.test/ok?x=1" h
             (http.mkReader "ignored" None) in
  outboundCalls (GetHandler env r) =
    [ {| http.outMethod := "GET"; http.outURL := "http://example.test/ok?x=1";
         http.outHeader := h; http.outBody := None |} ].
Proof.
  intros env h r.
  destruct (GetHandler_forwards env r "http://example.test/ok?x=1") as [_ Hout].
  - reflexivity.
  - discriminate.
  - exact Hout.
Defined.



(** ** What a handler run keeps to *)

Lemma doRequest_disciplined (env : Env) (method dest : string)
    (headers : http.Header) (requestBody : option string) :
  disciplined (doRequest env method dest headers requestBody).
Proof.
  unfold disciplined, doRequest, http.ReadAll.
  repeat case_match; cbn; (split; [by eexists|]); repeat split; lia.
Qed.

Lemma disciplined_after_log level msg fields tr :
  disciplined tr -> disciplined (EvLog level msg fields :: tr).
Proof. done. Qed.

(** X5: whatever the request and the environment, a run of the GET
    handler or of the POST handler passes exactly one status to the caller,
    calls the client at most once, writes at most one body and never before
    the status, and closes at most one upstream body. *)
Theorem handlers_disciplined (env : Env) (r : http.Request) :
  disciplined (GetHandler env r) /\ disciplined (PostHandler env r).
Proof.
  split.
  - destruct (GetHandler_unfold env r) as (entry & -> & fields & ->).
    apply disciplined_after_log.
    destruct (extractDest (http.RequestURI r)) as [dest [err|]].
    + unfold disciplined. cbn. split; [by eexists|]. repeat split; lia.
    + destruct (len dest =? 0).
      * unfold disciplined. cbn. split; [by eexists|]. repeat split; lia.
      * apply doRequest_disciplined.
  - destruct (ParseForm env r) as [r' [err|]] eqn:E.
    + rewrite (PostHandler_parse_error env r r' err E).
      unfold disciplined. cbn. split; [by eexists|]. repeat split; lia.
    + destruct (PostHandler_parse_ok env r r' E) as [fields ->].
      apply disciplined_after_log.
      destruct (extractDest (http.RequestURI r)) as [dest [err|]].
      * unfold disciplined. cbn. split; [by eexists|]. repeat split; lia.
      * destruct (len dest =? 0).
        -- unfold disciplined. cbn. split; [by eexists|]. repeat split; lia.
        -- apply doRequest_disciplined.
Qed.

(** ** Cleanup and error responses of the forwarder *)

(** X6: [doRequest] closes the upstream body exactly when the client
    returned a response, whether or not the body could then be read, and
    the close is the last thing it does; when the request could not be
    built or the client failed there is nothing to close and nothing is
    closed. *)
Theorem doRequest_closes_response (env : Env) (method dest : string)
    (headers : http.Header) (requestBody : option string) :
  let tr := doRequest env method dest headers requestBody in
  (forall req resp,
      NewRequest env method dest requestBody = inl req ->
      client_Do env (setHeader req headers) = inl resp ->
      closesDone tr = 1%nat /\ last tr = Some EvClose) /\
  (forall err,
      NewRequest env method dest requestBody = inr err -> closesDone tr = 0%nat) /\
  (forall req err,
      NewRequest env method dest requestBody = inl req ->
      client_Do env (setHeader req headers) = inr err ->
      closesDone tr = 0%nat).
Proof.
  intros tr. subst tr. split; [|split].
  - intros req resp H1 H2. unfold doRequest, http.ReadAll. rewrite H1, H2.
    by repeat case_match.
  - intros err H. by rewrite (doRequest_construction_failed _ _ _ _ _ err H).
  - intros req err H1 H2.
    by rewrite (doRequest_execution_failed _ _ _ _ _ req err H1 H2).
Qed.

Lemma doRequest_closes_response_witness :
  let dest := "http://example.test/ok" in
  let req := {| http.outMethod := "GET"; http.outURL := dest;
                http.outHeader := ∅; http.outBody := None |} in
  closesDone (doRequest stubBrokenBody "GET" dest ∅ None) = 1%nat /\
  closesDone (doRequest stubBadURL "GET" dest ∅ None) = 0%nat /\
  closesDone (doRequest stubRefusing "GET" dest ∅ None) = 0%nat.
Proof.
  intros dest req. split; [|split].
  - apply (proj1 (doRequest_closes_response stubBrokenBody "GET" dest ∅ None) req
             {| http.StatusCode := 200;
                http.respBody := http.mkReader "par" (Some (externalError "unexpected EOF")) |});
      reflexivity.
  - apply (proj1 (proj2 (doRequest_closes_response stubBadURL "GET" dest ∅ None))
             (externalError "missing protocol scheme")).
    reflexivity.
  - apply (proj2 (proj2 (doRequest_closes_response stubRefusing "GET" dest ∅ None))
             req (externalError "connection refused")); reflexivity.
Defined.

(** X7: [doRequest] writes a body to the caller only on the success path.
    If any body is written, the request was built, the client answered, the
    upstream body was read to its end, and what is written is that body
    under the status code of the upstream; the 400 and 500 answers of the
    forwarder carry no body. *)
Theorem doRequest_body_only_on_success (env : Env) (method dest : string)
    (headers : http.Header) (requestBody : option string) :
  let tr := doRequest env method dest headers requestBody in
  bodiesWritten tr <> [] ->
  exists req resp,
    NewRequest env method dest requestBody = inl req /\
    client_Do env (setHeader req headers) = inl resp /\
    http.readErr (http.respBody resp) = None /\
    statusesWritten tr = [http.StatusCode resp] /\
    bodiesWritten tr = [http.data (http.respBody resp)].
Proof.
  intros tr Hb. subst tr.
  destruct (NewRequest env method dest requestBody) as [req|err] eqn:H1.
  2:{ by rewrite (doRequest_construction_failed _ _ _ _ _ err H1) in Hb. }
  destruct (client_Do env (setHeader req headers)) as [resp|err] eqn:H2.
  2:{ by rewrite (doRequest_execution_failed _ _ _ _ _ req err H1 H2) in Hb. }
  destruct (http.readErr (http.respBody resp)) as [err|] eqn:H3.
  { by rewrite (doRequest_read_failed _ _ _ _ _ req resp err H1 H2 H3) in Hb. }
  destruct (http.checkWriteHeaderCode (http.StatusCode resp)) eqn:H4.
  2:{ by rewrite (doRequest_panics _ _ _ _ _ req resp H1 H2 H3 H4) in Hb. }
  exists req, resp. split; [done|]. split; [done|]. split; [done|].
  rewrite (doRequest_relayed _ _ _ _ _ req resp H1 H2 H3 H4).
  by destruct (writer_Write env _).
Qed.

Lemma doRequest_body_only_on_success_witness :
  let tr := doRequest (stubUpstream 201 "hi") "GET" "http://example.test/ok" ∅ None in
  statusesWritten tr = [201] /\ bodiesWritten tr = ["hi"].
Proof.
  intros tr.
  destruct (doRequest_body_only_on_success (stubUpstream 201 "hi") "GET"
              "http://example.test/ok" ∅ None)
    as (req & resp & H1 & H2 & _ & Hs & Hb).
  - discriminate.
  - vm_compute in H1. injection H1 as <-.
    vm_compute in H2. injection H2 as <-.
    split; [exact Hs|exact Hb].
Defined.

(** X8: the method given to [doRequest] goes through [http.NewRequest]:
    a method with a byte that is not a token character makes the forwarder
    answer 500 without calling the client, whatever the destination, and
    the empty method is sent as GET. *)
Theorem doRequest_method_edge (env : Env) (method dest : string)
    (headers : http.Header) (requestBody : option string) :
  (method <> EmptyString -> http.validMethod method = false ->
   doRequest env method dest headers requestBody =
     [EvWriteHeader 500;
      EvLog ErrorLevel "create new get request failed"
        [zap_ErrorText "error" (invalidMethodError method)]]) /\
  doRequest env "" dest headers requestBody =
    doRequest env "GET" dest headers requestBody.
Proof.
  split.
  - intros Hne Hv. apply doRequest_construction_failed.
    unfold NewRequest.
    assert (String.eqb method "" = false) as -> by by apply String.eqb_neq.
    by rewrite Hv.
  - reflexivity.
Qed.

Lemma doRequest_method_edge_witness :
  statusesWritten (doRequest (stubUpstream 201 "hi") "GE T" "http://example.test/ok" ∅ None)
  = [500] /\
  outboundCalls (doRequest (stubUpstream 201 "hi") "GE T" "http://example.test/ok" ∅ None)
  = [].
Proof.
  pose proof (proj1 (doRequest_method_edge (stubUpstream 201 "hi") "GE T"
                       "http://example.test/ok" ∅ None)) as H.
  rewrite H; [split; reflexivity|discriminate|reflexivity].
Defined.

(** ** Sequences of lifecycle operations *)

Section LifecycleRuns.
Context (env : Env).

Lemma applyOp_machine c op :
  (lifecycleState (applyOp env c op).1.1, (applyOp env c op).2)
  = machineStep (lifecycleState c) op.
Proof.
  destruct op as [sc ka|]; simpl; unfold lifecycleState, Start, Shutdown;
    by destruct (server c) eqn:E; simpl; rewrite ?E.
Qed.

Lemma applyOp_config c op :
  let c' := (applyOp env c op).1.1 in
  localAddr c' = localAddr c /\
  allowedHeaders c' = allowedHeaders c /\
  allowedOrigins c' = allowedOrigins c /\
  allowedMethods c' = allowedMethods c /\
  skipClean (router c') = skipClean (router c).
Proof.
  destruct op as [sc ka|]; simpl; unfold Start, Shutdown;
    by destruct (server c).
Qed.

Lemma applyOp_serverMatches c op :
  serverMatches c -> serverMatches (applyOp env c op).1.1.
Proof.
  intros Hc. destruct op as [sc ka|]; simpl; unfold Start, Shutdown.
  - destruct (server c) eqn:E; [done|]. intros srv [= <-]. done.
  - destruct (server c) eqn:E; [|done]. intros srv [=].
Qed.

Lemma applyOp_routes c op :
  routes (router (applyOp env c op).1.1) =
    routes (router c) ++
    match op, (applyOp env c op).2 with
    | OpStart _ _, None => startRoutes
    | _, _ => []
    end.
Proof.
  destruct op as [sc ka|]; simpl; unfold Start, Shutdown;
    destruct (server c); simpl; by rewrite ?app_nil_r.
Qed.

End LifecycleRuns.

(** X9: over any sequence of [Start] and [Shutdown] calls the server value
    behaves as the two-state machine: the errors returned, call by call,
    and the state reached are those of the machine started in the state of
    the server; a call fails exactly when it repeats the last call that
    succeeded. *)
Theorem lifecycle_run_is_machine (env : Env) (c : ProxyServer)
    (ops : list LifecycleOp) :
  (lifecycleState (runOps env c ops).1, (runOps env c ops).2)
  = machineRun (lifecycleState c) ops.
Proof.
  revert c. induction ops as [|op ops IH]; intros c; [done|].
  cbn [runOps machineRun].
  pose proof (applyOp_machine env c op) as Hstep.
  destruct (applyOp env c op) as [[c' tr] err]. simpl in Hstep.
  rewrite <- Hstep. specialize (IH c').
  destruct (runOps env c' ops) as [c'' errs]. simpl in IH |- *.
  by rewrite <- IH.
Qed.

(** X10: no sequence of lifecycle calls changes the configuration of the
    server value (listen address, allowed headers, origins and methods, the
    clean-path switch of the router), and a server that is running at the
    end was built from that configuration. *)
Theorem lifecycle_keeps_configuration (env : Env) (c : ProxyServer)
    (ops : list LifecycleOp) :
  serverMatches c ->
  let c' := (runOps env c ops).1 in
  localAddr c' = localAddr c /\
  allowedHeaders c' = allowedHeaders c /\
  allowedOrigins c' = allowedOrigins c /\
  allowedMethods c' = allowedMethods c /\
  skipClean (router c') = skipClean (router c) /\
  serverMatches c'.
Proof.
  revert c. induction ops as [|op ops IH]; intros c Hc; [done|].
  cbn [runOps].
  pose proof (applyOp_config env c op) as Hcfg.
  pose proof (applyOp_serverMatches env c op Hc) as Hm.
  destruct (applyOp env c op) as [[c1 tr] err]. simpl in Hcfg, Hm.
  specialize (IH c1 Hm).
  destruct (runOps env c1 ops) as [c2 errs]. simpl in IH |- *.
  destruct Hcfg as (Ha & Hh & Ho & Hme & Hs).
  rewrite Ha, Hh, Ho, Hme, Hs in IH. exact IH.
Qed.

Lemma lifecycle_keeps_configuration_witness :
  let ops := [OpStart (Some 0%nat) false; OpShutdown; OpStart None true] in
  let c' := (runOps stubShutdownTimeout (NewProxyServer "0.0.0.0:8000") ops).1 in
  localAddr c' = "0.0.0.0:8000" /\
  (Addr <$> server c') = Some "0.0.0.0:8000".
Proof.
  intros ops c'.
  destruct (lifecycle_keeps_configuration stubShutdownTimeout
              (NewProxyServer "0.0.0.0:8000") ops)
    as (Ha & _ & _ & _ & _ & Hm).
  - intros srv H. discriminate H.
  - split; [exact Ha|].
    destruct (Hm {| Addr := "0.0.0.0:8000"; corsHeaders := ["*"]; corsOrigins := ["*"];
                    corsMethods := ["GET"; "POST"]; keepAlivesEnabled := true |} eq_refl)
      as [HA _].
    reflexivity.
Defined.

(** X11: every successful [Start] appends the GET route and the POST route
    to the router, and nothing ever removes a route: after a sequence of
    lifecycle calls the router holds its former routes followed by one such
    pair per successful [Start], so a server that was restarted answers
    through duplicated routes. *)
Theorem lifecycle_routes_accumulate (env : Env) (c : ProxyServer)
    (ops : list LifecycleOp) :
  routes (router (runOps env c ops).1) =
    routes (router c) ++ concat (replicate (startsDone env c ops) startRoutes).
Proof.
  revert c. induction ops as [|op ops IH]; intros c.
  - simpl. by rewrite app_nil_r.
  - cbn [runOps startsDone].
    pose proof (applyOp_routes env c op) as Hr.
    destruct op as [sc ka|]; cbn [applyOp] in *.
    + destruct (Start c sc ka) as [[c1 tr] err]. simpl in Hr.
      specialize (IH c1).
      destruct (runOps env c1 ops) as [c2 errs]. simpl in IH |- *.
      rewrite IH, Hr, <- app_assoc. f_equal. by destruct err.
    + destruct (Shutdown env c) as [[c1 tr] err]. simpl in Hr.
      specialize (IH c1).
      destruct (runOps env c1 ops) as [c2 errs]. simpl in IH |- *.
      by rewrite IH, Hr, <- app_assoc.
Qed.
